(** * Permission resolution of discordeno (util/permissions.ts)

    A shallow embedding of the permission helpers: base permissions of a
    member in a guild, channel overwrites, the permission-set algebra and
    role ranking, together with the fragments of the JavaScript run time
    they rely on (completions, promises, [BigInt] conversion and printing,
    string comparison).

    Conventions.
    - A JavaScript string is a [string], one character per code unit; the
      embedding covers strings whose code units are below 256, which
      includes every identifier and bit string of the platform.
    - A [bigint] is a [Z]; [&], [|] and [~] are [Z.land], [Z.lor] and
      [Z.lnot], which agree with the two's complement reading of bigints.
    - A [Collection] (a [Map]) is a [gmap] with string keys.
    - Line numbers in the comments are those of the listing that holds the
      helpers in the sources (.github/workflows/deploy.yml, lines 25-310). *)

From Stdlib Require Import ZArith NArith Ascii String DecimalString DecimalZ DecimalPos Lia.
From stdpp Require Import base option list gmap strings sorting.

Open Scope string_scope.
Open Scope Z_scope.

(** ** Completions and promises *)

(** What a thrown value is: [Error(msg)] (also [new Error(msg)]), or the
    [SyntaxError] that [BigInt] raises on a string that is no integer
    literal. *)
Inductive exn : Type :=
| Error (message : string)
| SyntaxError.

Inductive completion (A : Type) : Type :=
| Return (a : A)
| Throw (e : exn).
Arguments Return {A} a.
Arguments Throw {A} e.

#[global] Instance completion_ret : MRet completion := @Return.
#[global] Instance completion_bind : MBind completion :=
  λ A B f c, match c with Return a => f a | Throw e => Throw e end.

(** An [async] function hands back a promise; the cache lookups it awaits
    are reads of the snapshot, so the promise is settled by the completion
    of the body. *)
Inductive Promise (A : Type) : Type :=
| settled (c : completion A).
Arguments settled {A} c.

Definition async {A} (body : completion A) : Promise A := settled body.
Definition await {A} (p : Promise A) : completion A :=
  match p with settled c => c end.

(** ** [BigInt] on strings, and [toString] *)

Module JS.

(** White space and line terminators that [StringToBigInt] trims
    (TAB, LF, VT, FF, CR, SP, NBSP). *)
Definition isStrWhiteSpaceChar (c : ascii) : bool :=
  let n := N_of_ascii c in
  ((n =? 9) || (n =? 10) || (n =? 11) || (n =? 12) || (n =? 13)
   || (n =? 32) || (n =? 160))%N.

Fixpoint trimStart (s : string) : string :=
  match s with
  | EmptyString => EmptyString
  | String c r => if isStrWhiteSpaceChar c then trimStart r else s
  end.

Fixpoint trimEnd (s : string) : string :=
  match s with
  | EmptyString => EmptyString
  | String c r =>
      match trimEnd r with
      | EmptyString => if isStrWhiteSpaceChar c then EmptyString else String c EmptyString
      | r' => String c r'
      end
  end.

Definition trim (s : string) : string := trimEnd (trimStart s).

(** The value of a digit, for radix up to 16. *)
Definition digitValue (c : ascii) : option N :=
  let n := N_of_ascii c in
  (if (48 <=? n) && (n <=? 57) then Some (n - 48)
   else if (97 <=? n) && (n <=? 102) then Some (n - 87)
   else if (65 <=? n) && (n <=? 70) then Some (n - 55)
   else None)%N.

Fixpoint digitsValue (radix : N) (s : string) (acc : N) : option N :=
  match s with
  | EmptyString => Some acc
  | String c r =>
      match digitValue c with
      | Some d => if (d <? radix)%N then digitsValue radix r (acc * radix + d)%N else None
      | None => None
      end
  end.

(** One or more digits of the radix. *)
Definition parseDigits (radix : N) (s : string) : option N :=
  match s with
  | EmptyString => None
  | _ => digitsValue radix s 0%N
  end.

Definition isOneOf (c a b : ascii) : bool := Ascii.eqb c a || Ascii.eqb c b.

(** [StrIntegerLiteral]: a signed decimal integer, or an unsigned binary,
    octal or hexadecimal literal. *)
Definition StrIntegerLiteral (s : string) : option Z :=
  match s with
  | String c r =>
      if Ascii.eqb c "+" then Z.of_N <$> parseDigits 10 r
      else if Ascii.eqb c "-" then (λ n, - Z.of_N n) <$> parseDigits 10 r
      else
        match r with
        | String p r' =>
            if Ascii.eqb c "0" && isOneOf p "x" "X" then Z.of_N <$> parseDigits 16 r'
            else if Ascii.eqb c "0" && isOneOf p "o" "O" then Z.of_N <$> parseDigits 8 r'
            else if Ascii.eqb c "0" && isOneOf p "b" "B" then Z.of_N <$> parseDigits 2 r'
            else Z.of_N <$> parseDigits 10 s
        | EmptyString => Z.of_N <$> parseDigits 10 s
        end
  | EmptyString => None
  end.

(** [StringToBigInt]: the empty (or all-blank) string is [0n]; [None]
    stands for the failure that makes [BigInt] throw. *)
Definition StringToBigInt (s : string) : option Z :=
  match trim s with
  | EmptyString => Some 0
  | t => StrIntegerLiteral t
  end.

(** [BigInt.prototype.toString()], radix 10. *)
Definition toString (z : Z) : string := NilZero.string_of_int (Z.to_int z).

(** Strings made of decimal digits only. *)
Fixpoint decimalDigits (s : string) : bool :=
  match s with
  | EmptyString => true
  | String c r =>
      match digitValue c with
      | Some d => (d <? 10)%N && decimalDigits r
      | None => false
      end
  end.

End JS.

(** [BigInt(s)] for a string [s]. *)
Definition BigInt (s : string) : completion Z :=
  match JS.StringToBigInt s with
  | Some z => Return z
  | None => Throw SyntaxError
  end.

(** [BigInt(p)] for a Promise object [p]: the argument goes through
    [ToPrimitive], which for a promise ends in [Object.prototype.toString]. *)
Definition ToPrimitive_Promise {A} (p : Promise A) : string := "[object Promise]".

(** Truthiness of a string and of a bigint. *)
Definition truthy_string (s : string) : bool := negb (String.eqb s "").
Definition truthy_bigint (z : Z) : bool := negb (z =? 0).

(** ** The error catalog (api/types/errors.ts)

    [Errors] is a string enum in which the value of every member is the
    member's own name. *)
Module Errors.

Definition members : list string :=
  [ "BOTS_HIGHEST_ROLE_TOO_LOW";
    "CHANNEL_NOT_FOUND"; "CHANNEL_NOT_IN_GUILD"; "CHANNEL_NOT_TEXT_BASED";
    "MESSAGE_MAX_LENGTH";
    "GUILD_NOT_FOUND"; "MEMBER_NOT_FOUND"; "ROLE_NOT_FOUND";
    "DELETE_MESSAGES_MIN"; "PRUNE_MIN_DAYS";
    "INVALID_SLASH_DESCRIPTION"; "INVALID_SLASH_NAME";
    "INVALID_WEBHOOK_NAME"; "INVALID_WEBHOOK_OPTIONS";
    "MISSING_ADD_REACTIONS"; "MISSING_ADMINISTRATOR"; "MISSING_ATTACH_FILES";
    "MISSING_BAN_MEMBERS"; "MISSING_CHANGE_NICKNAME"; "MISSING_CONNECT";
    "MISSING_CREATE_INSTANT_INVITE"; "MISSING_DEAFEN_MEMBERS";
    "MISSING_EMBED_LINKS"; "MISSING_INTENT_GUILD_MEMBERS";
    "MISSING_KICK_MEMBERS"; "MISSING_MANAGE_CHANNELS"; "MISSING_MANAGE_EMOJIS";
    "MISSING_MANAGE_GUILD"; "MISSING_MANAGE_MESSAGES";
    "MISSING_MANAGE_NICKNAMES"; "MISSING_MANAGE_ROLES";
    "MISSING_MANAGE_WEBHOOKS"; "MISSING_MENTION_EVERYONE";
    "MISSING_MOVE_MEMBERS"; "MISSING_MUTE_MEMBERS";
    "MISSING_PRIORITY_SPEAKER"; "MISSING_READ_MESSAGE_HISTORY";
    "MISSING_SEND_MESSAGES"; "MISSING_SEND_TTS_MESSAGES"; "MISSING_SPEAK";
    "MISSING_STREAM"; "MISSING_USE_VAD"; "MISSING_USE_EXTERNAL_EMOJIS";
    "MISSING_VIEW_AUDIT_LOG"; "MISSING_VIEW_CHANNEL";
    "MISSING_VIEW_GUILD_INSIGHTS";
    "NICKNAMES_MAX_LENGTH"; "USERNAME_INVALID_CHARACTER";
    "USERNAME_INVALID_USERNAME"; "USERNAME_MAX_LENGTH"; "USERNAME_MIN_LENGTH";
    "RATE_LIMIT_RETRY_MAXED"; "REQUEST_CLIENT_ERROR"; "REQUEST_SERVER_ERROR";
    "REQUEST_UNKNOWN_ERROR" ].

(** [Errors[key]]: [None] is [undefined]. *)
Definition get (key : string) : option string :=
  if existsb (String.eqb key) members then Some key else None.

Definition CHANNEL_NOT_FOUND : string := "CHANNEL_NOT_FOUND".
Definition GUILD_NOT_FOUND : string := "GUILD_NOT_FOUND".
Definition MEMBER_NOT_FOUND : string := "MEMBER_NOT_FOUND".
Definition ROLE_NOT_FOUND : string := "ROLE_NOT_FOUND".

End Errors.

(** [new Error(v)] for [v : string | undefined]; the message of
    [new Error(undefined)] is empty. *)
Definition new_Error (v : option string) : exn := Error (default "" v).

(** ** The capability catalog

    Modelled from the spec: the [Permission] names and the [Permissions]
    table live in types/mod.ts, which is not among the sources. The names
    are those for which errors.ts has a [MISSING_] entry
    ([MISSING_INTENT_GUILD_MEMBERS] apart, which names a gateway intent);
    the numeric table is a parameter of the engine below. *)
Inductive Permission : Type :=
| CREATE_INSTANT_INVITE | KICK_MEMBERS | BAN_MEMBERS | ADMINISTRATOR
| MANAGE_CHANNELS | MANAGE_GUILD | ADD_REACTIONS | VIEW_AUDIT_LOG
| PRIORITY_SPEAKER | STREAM | VIEW_CHANNEL | SEND_MESSAGES
| SEND_TTS_MESSAGES | MANAGE_MESSAGES | EMBED_LINKS | ATTACH_FILES
| READ_MESSAGE_HISTORY | MENTION_EVERYONE | USE_EXTERNAL_EMOJIS
| VIEW_GUILD_INSIGHTS | CONNECT | SPEAK | MUTE_MEMBERS | DEAFEN_MEMBERS
| MOVE_MEMBERS | USE_VAD | CHANGE_NICKNAME | MANAGE_NICKNAMES
| MANAGE_ROLES | MANAGE_WEBHOOKS | MANAGE_EMOJIS.

(** The string a [Permission] is at run time. *)
Definition Permission_name (p : Permission) : string :=
  match p with
  | CREATE_INSTANT_INVITE => "CREATE_INSTANT_INVITE"
  | KICK_MEMBERS => "KICK_MEMBERS"
  | BAN_MEMBERS => "BAN_MEMBERS"
  | ADMINISTRATOR => "ADMINISTRATOR"
  | MANAGE_CHANNELS => "MANAGE_CHANNELS"
  | MANAGE_GUILD => "MANAGE_GUILD"
  | ADD_REACTIONS => "ADD_REACTIONS"
  | VIEW_AUDIT_LOG => "VIEW_AUDIT_LOG"
  | PRIORITY_SPEAKER => "PRIORITY_SPEAKER"
  | STREAM => "STREAM"
  | VIEW_CHANNEL => "VIEW_CHANNEL"
  | SEND_MESSAGES => "SEND_MESSAGES"
  | SEND_TTS_MESSAGES => "SEND_TTS_MESSAGES"
  | MANAGE_MESSAGES => "MANAGE_MESSAGES"
  | EMBED_LINKS => "EMBED_LINKS"
  | ATTACH_FILES => "ATTACH_FILES"
  | READ_MESSAGE_HISTORY => "READ_MESSAGE_HISTORY"
  | MENTION_EVERYONE => "MENTION_EVERYONE"
  | USE_EXTERNAL_EMOJIS => "USE_EXTERNAL_EMOJIS"
  | VIEW_GUILD_INSIGHTS => "VIEW_GUILD_INSIGHTS"
  | CONNECT => "CONNECT"
  | SPEAK => "SPEAK"
  | MUTE_MEMBERS => "MUTE_MEMBERS"
  | DEAFEN_MEMBERS => "DEAFEN_MEMBERS"
  | MOVE_MEMBERS => "MOVE_MEMBERS"
  | USE_VAD => "USE_VAD"
  | CHANGE_NICKNAME => "CHANGE_NICKNAME"
  | MANAGE_NICKNAMES => "MANAGE_NICKNAMES"
  | MANAGE_ROLES => "MANAGE_ROLES"
  | MANAGE_WEBHOOKS => "MANAGE_WEBHOOKS"
  | MANAGE_EMOJIS => "MANAGE_EMOJIS"
  end.

(** Modelled from the spec: an instance of the [Permissions] table, one
    distinct bit per flag in the platform's published order, with
    ADMINISTRATOR at the bit whose decimal form is the sentinel ["8"] of
    the code. It is used for the concrete snapshots only. *)
Definition platformPermissions (p : Permission) : Z :=
  match p with
  | CREATE_INSTANT_INVITE => 0x1
  | KICK_MEMBERS => 0x2
  | BAN_MEMBERS => 0x4
  | ADMINISTRATOR => 0x8
  | MANAGE_CHANNELS => 0x10
  | MANAGE_GUILD => 0x20
  | ADD_REACTIONS => 0x40
  | VIEW_AUDIT_LOG => 0x80
  | PRIORITY_SPEAKER => 0x100
  | STREAM => 0x200
  | VIEW_CHANNEL => 0x400
  | SEND_MESSAGES => 0x800
  | SEND_TTS_MESSAGES => 0x1000
  | MANAGE_MESSAGES => 0x2000
  | EMBED_LINKS => 0x4000
  | ATTACH_FILES => 0x8000
  | READ_MESSAGE_HISTORY => 0x10000
  | MENTION_EVERYONE => 0x20000
  | USE_EXTERNAL_EMOJIS => 0x40000
  | VIEW_GUILD_INSIGHTS => 0x80000
  | CONNECT => 0x100000
  | SPEAK => 0x200000
  | MUTE_MEMBERS => 0x400000
  | DEAFEN_MEMBERS => 0x800000
  | MOVE_MEMBERS => 0x1000000
  | USE_VAD => 0x2000000
  | CHANGE_NICKNAME => 0x4000000
  | MANAGE_NICKNAMES => 0x8000000
  | MANAGE_ROLES => 0x10000000
  | MANAGE_WEBHOOKS => 0x20000000
  | MANAGE_EMOJIS => 0x40000000
  end.

(** ** The cached structures

    Only the fields the permission helpers read. *)
Module Role.
Record t : Type := mk { id : string; position : Z; permissions : string }.
End Role.

Module Overwrite.
Record t : Type := mk { id : string; allow : string; deny : string }.
End Overwrite.

Module Channel.
(** [guildID] is the empty string for a channel outside a guild. *)
Record t : Type :=
  mk { id : string; guildID : string; permissionOverwrites : list Overwrite.t }.
End Channel.

Module GuildMember.
Record t : Type := mk { roles : list string }.
End GuildMember.

Module Member.
Record t : Type := mk { id : string; guilds : gmap string GuildMember.t }.
End Member.

Module Guild.
Record t : Type := mk { id : string; ownerID : string; roles : gmap string Role.t }.
End Guild.

(** What [cacheHandlers.get] reads from. *)
Record Cache : Type :=
  { guilds : gmap string Guild.t;
    members : gmap string Member.t;
    channels : gmap string Channel.t }.

(** ** The helpers of util/permissions.ts *)

Section Engine.

(** The [Permissions] enum (a numeric enum of bit values) and the cache
    behind [cacheHandlers]. *)
Variable Permissions : Permission → Z.
Variable cache : Cache.

(** [member.guilds.get(guildID)?.roles] *)
Definition memberRoles (member : Member.t) (guildID : string) : option (list string) :=
  GuildMember.roles <$> Member.guilds member !! guildID.

(** [.map((id) => guild.roles.get(id)?.permissions).filter((id) => id)]:
    an absent role and an empty permission string are both falsy. *)
Definition rolePermissions (guild : Guild.t) (ids : list string) : list string :=
  omap (λ id,
          match Role.permissions <$> Guild.roles guild !! id with
          | Some perms => if truthy_string perms then Some perms else None
          | None => None
          end) ids.

(** [.reduce((bits, perms) => { bits |= BigInt(perms); return bits; }, bits)] *)
Fixpoint reduceBits (l : list string) (bits : Z) : completion Z :=
  match l with
  | [] => Return bits
  | perms :: rest => p ← BigInt perms; reduceBits rest (Z.lor bits p)
  end.

(** Computes the permissions this member has in the given guild. *)
Definition computeBasePermissions (memberID guildID : string) : Promise string :=
  async
    match guilds cache !! guildID with
    | None => Throw (Error Errors.GUILD_NOT_FOUND)
    | Some guild =>
        if String.eqb (Guild.ownerID guild) memberID then Return "8"
        else
          match members cache !! memberID with
          | None => Throw (Error Errors.MEMBER_NOT_FOUND)
          | Some member =>
              bits ← reduceBits
                       (rolePermissions guild
                          (default [] (memberRoles member guildID) ++ [guildID])) 0;
              let permissions := Z.lor 0 bits in
              if truthy_bigint (Z.land permissions (Permissions ADMINISTRATOR))
              then Return "8"
              else Return (JS.toString permissions)
          end
    end.

(** [permissions &= ~BigInt(overwrite.deny); permissions |= BigInt(overwrite.allow);] *)
Definition applyOverwrite (permissions : Z) (overwrite : Overwrite.t) : completion Z :=
  deny ← BigInt (Overwrite.deny overwrite);
  allow ← BigInt (Overwrite.allow overwrite);
  Return (Z.lor (Z.land permissions (Z.lnot deny)) allow).

(** [overwrites.find((overwrite) => overwrite.id === id)] *)
Definition findOverwrite (overwrites : list Overwrite.t) (id : string) : option Overwrite.t :=
  List.find (λ overwrite, String.eqb (Overwrite.id overwrite) id) overwrites.

(** The keys a [for (const key in value)] visits when [value] is an array
    (its indices, as strings) or [undefined] (none). *)
Definition forInKeys {A} (value : option (list A)) : list string :=
  match value with
  | None => []
  | Some l => (λ i, JS.toString (Z.of_nat i)) <$> seq 0 (List.length l)
  end.

(** Lines 79-87: the [@everyone] overwrite. *)
Definition everyoneOverwrite (channel : Channel.t) (permissions : Z) : completion Z :=
  match findOverwrite (Channel.permissionOverwrites channel) (Channel.guildID channel) with
  | Some overwriteEveryone => applyOverwrite permissions overwriteEveryone
  | None => Return permissions
  end.

(** The body of the loop of lines 96-102, over the keys it visits. *)
Fixpoint roleOverwritesLoop (overwrites : list Overwrite.t) (keys : list string)
    (allow deny : Z) : completion (Z * Z) :=
  match keys with
  | [] => Return (allow, deny)
  | roleID :: rest =>
      match findOverwrite overwrites roleID with
      | Some overwriteRole =>
          d ← BigInt (Overwrite.deny overwriteRole);
          a ← BigInt (Overwrite.allow overwriteRole);
          roleOverwritesLoop overwrites rest (Z.lor allow a) (Z.land deny (Z.lnot d))
      | None => roleOverwritesLoop overwrites rest allow deny
      end
  end.

(** Lines 89-105: the overwrites of the member's roles. *)
Definition roleOverwrites (member : Member.t) (channel : Channel.t) (permissions : Z)
    : completion Z :=
  let overwrites := Channel.permissionOverwrites channel in
  '(allow, deny) ← roleOverwritesLoop overwrites
                     (forInKeys (memberRoles member (Channel.guildID channel))) 0 0;
  Return (Z.lor (Z.land permissions (Z.lnot deny)) allow).

(** Lines 106-113: the overwrite of the member itself. *)
Definition memberOverwrite (memberID : string) (channel : Channel.t) (permissions : Z)
    : completion Z :=
  match findOverwrite (Channel.permissionOverwrites channel) memberID with
  | Some overwriteMember => applyOverwrite permissions overwriteMember
  | None => Return permissions
  end.

(** Lines 73-115: what [computeChannelOverwrites] does with the value it
    holds in [permissions] after line 72. *)
Definition channelOverwritesFrom (memberID : string) (channel : Channel.t)
    (permissions : Z) : completion string :=
  if truthy_bigint (Z.land permissions (Permissions ADMINISTRATOR)) then Return "8"
  else
    match members cache !! memberID with
    | None => Throw (Error Errors.MEMBER_NOT_FOUND)
    | Some member =>
        permissions ← everyoneOverwrite channel permissions;
        permissions ← roleOverwrites member channel permissions;
        permissions ← memberOverwrite memberID channel permissions;
        Return (JS.toString permissions)
    end.

(** Computes the permissions this member has for the given channel.
    Line 72 passes the promise of [computeBasePermissions] to [BigInt] as it
    is: the call is not awaited. *)
Definition computeChannelOverwrites (memberID channelID : string) : Promise string :=
  async
    match channels cache !! channelID with
    | None => Throw (Error Errors.CHANNEL_NOT_FOUND)
    | Some channel =>
        if negb (truthy_string (Channel.guildID channel)) then Return "8"
        else
          permissions ← BigInt (ToPrimitive_Promise
                                  (computeBasePermissions memberID (Channel.guildID channel)));
          channelOverwritesFrom memberID channel permissions
    end.

(** [permissions.every((permission) => BigInt(permissionBits) & BigInt(Permissions[permission]))] *)
Fixpoint everyPermission (permissionBits : string) (permissions : list Permission)
    : completion bool :=
  match permissions with
  | [] => Return true
  | permission :: rest =>
      bits ← BigInt permissionBits;
      if truthy_bigint (Z.land bits (Permissions permission))
      then everyPermission permissionBits rest
      else Return false
  end.

(** Checks if the given permissionBits are matching the given permissions. *)
Definition validatePermissions (permissionBits : string) (permissions : list Permission)
    : completion bool :=
  if String.eqb permissionBits "8" then Return true
  else everyPermission permissionBits permissions.

(** Checks if the given member has these permissions in the given guild. *)
Definition hasRolePermissions (memberID guildID : string) (permissions : list Permission)
    : Promise bool :=
  async (basePermissions ← await (computeBasePermissions memberID guildID);
         validatePermissions basePermissions permissions).

(** The [forEach] of lines 159-164, pushing onto [missing]. *)
Fixpoint missingLoop (permissionBits : string) (permissions : list Permission)
    (missing : list Permission) : completion (list Permission) :=
  match permissions with
  | [] => Return missing
  | permission :: rest =>
      bits ← BigInt permissionBits;
      if negb (truthy_bigint (Z.land bits (Permissions permission)))
      then missingLoop permissionBits rest (missing ++ [permission])
      else missingLoop permissionBits rest missing
  end.

(** Returns the permissions that are not in the given permissionBits. *)
Definition missingPermissions (permissionBits : string) (permissions : list Permission)
    : completion (list Permission) :=
  if String.eqb permissionBits "8" then Return []
  else missingLoop permissionBits permissions [].

(** [if (missing.length) throw new Error(Errors[`MISSING_${missing[0]}`])] *)
Definition throwFirstMissing (missing : list Permission) : completion unit :=
  match missing with
  | [] => Return tt
  | first :: _ => Throw (new_Error (Errors.get ("MISSING_" ++ Permission_name first)))
  end.

(** Throws an error if this member has not all of the given permissions. *)
Definition throwOnMissingGuildPermission (memberID guildID : string)
    (permissions : list Permission) : Promise unit :=
  async (permissionBits ← await (computeBasePermissions memberID guildID);
         missing ← missingPermissions permissionBits permissions;
         throwFirstMissing missing).

(** Throws an error if this member has not all of the given permissions
    in the channel. *)
Definition throwOnMissingChannelPermission (memberID channelID : string)
    (permissions : list Permission) : Promise unit :=
  async (permissionBits ← await (computeChannelOverwrites memberID channelID);
         missing ← missingPermissions permissionBits permissions;
         throwFirstMissing missing).

(** This function converts an array of permissions into the bitwise string. *)
Definition calculateBits (permissions : list Permission) : string :=
  JS.toString (fold_left (λ bits perm, Z.lor bits (Permissions perm)) permissions 0).

(** The loop of lines 253-264. *)
Fixpoint highestRoleLoop (roles : gmap string Role.t) (memberRoles : list string)
    (memberHighestRole : option Role.t) : option Role.t :=
  match memberRoles with
  | [] => memberHighestRole
  | roleID :: rest =>
      match roles !! roleID with
      | None => highestRoleLoop roles rest memberHighestRole
      | Some role =>
          match memberHighestRole with
          | None => highestRoleLoop roles rest (Some role)
          | Some highest =>
              if Role.position highest <? Role.position role
              then highestRoleLoop roles rest (Some role)
              else highestRoleLoop roles rest memberHighestRole
          end
      end
  end.

(** Gets the highest role from the member in this guild; [None] is
    [undefined]. *)
Definition highestRole (guildID memberID : string) : Promise (option Role.t) :=
  async
    match guilds cache !! guildID with
    | None => Throw (Error Errors.GUILD_NOT_FOUND)
    | Some guild =>
        match members cache !! memberID ≫= (λ member, memberRoles member guildID) with
        | None => Return (Guild.roles guild !! guildID)
        | Some roleIDs => Return (highestRoleLoop (Guild.roles guild) roleIDs None)
        end
    end.

(** Lines 283-287 and 305-309: the comparison of two roles. *)
Definition comparePosition (role otherRole : Role.t) : bool :=
  if Role.position role =? Role.position otherRole
  then String.ltb (Role.id role) (Role.id otherRole)
  else Role.position role >? Role.position otherRole.

(** Checks if the first role is higher than the second role. *)
Definition higherRolePosition (guildID roleID otherRoleID : string) : Promise bool :=
  async
    match guilds cache !! guildID with
    | None => Throw (Error Errors.GUILD_NOT_FOUND)
    | Some guild =>
        match Guild.roles guild !! roleID, Guild.roles guild !! otherRoleID with
        | Some role, Some otherRole => Return (comparePosition role otherRole)
        | _, _ => Throw (Error Errors.ROLE_NOT_FOUND)
        end
    end.

(** Checks if the member has a higher position than the given role. *)
Definition isHigherPosition (guildID memberID compareRoleID : string) : Promise bool :=
  async
    match guilds cache !! guildID with
    | None => Throw (Error Errors.GUILD_NOT_FOUND)
    | Some guild =>
        if String.eqb (Guild.ownerID guild) memberID then Return true
        else
          memberHighestRole ← await (highestRole guildID memberID);
          match memberHighestRole, Guild.roles guild !! compareRoleID with
          | Some highest, Some compareRole => Return (comparePosition highest compareRole)
          | _, _ => Throw (Error Errors.ROLE_NOT_FOUND)
          end
    end.

End Engine.

(** ** The resolution steps as the specification words them

    These follow the text of the specification, not the code; the theorems
    below compare them with the helpers above. *)
Module Spec.

(** The bitmask a bit string denotes ([0] when it denotes none). *)
Definition maskOf (bits : string) : Z := default 0 (JS.StringToBigInt bits).

(** The capability set of a role, when its permission string denotes one. *)
Definition capabilitySet (role : Role.t) : option Z :=
  JS.StringToBigInt (Role.permissions role).

(** §4.1 steps 2-3: the roles of the member's recorded role IDs plus the
    guild's own ID, with the IDs that resolve to no role dropped. *)
Definition candidateRoles (guild : Guild.t) (member : Member.t) (guildID : string)
    : list Role.t :=
  omap (λ id, Guild.roles guild !! id)
       (default [] (GuildMember.roles <$> Member.guilds member !! guildID) ++ [guildID])%list.

(** §4.1 step 4: the OR of the candidates' capability sets. *)
Definition unionOf (roles : list Role.t) : Z :=
  fold_right (λ role acc, Z.lor (maskOf (Role.permissions role)) acc) 0 roles.

(** §4.2 step 4: the overwrites whose identity is one of the member's role
    IDs, the OR of their deny masks and of their allow masks, and the update
    of the running set: deny cleared first, allow set next. *)
Definition matchingOverwrites (roleIDs : list string) (overwrites : list Overwrite.t)
    : list Overwrite.t :=
  List.filter (λ overwrite, existsb (String.eqb (Overwrite.id overwrite)) roleIDs) overwrites.

Definition combinedDeny (roleIDs : list string) (overwrites : list Overwrite.t) : Z :=
  fold_right (λ overwrite acc, Z.lor (maskOf (Overwrite.deny overwrite)) acc) 0
             (matchingOverwrites roleIDs overwrites).

Definition combinedAllow (roleIDs : list string) (overwrites : list Overwrite.t) : Z :=
  fold_right (λ overwrite acc, Z.lor (maskOf (Overwrite.allow overwrite)) acc) 0
             (matchingOverwrites roleIDs overwrites).

Definition roleTier (roleIDs : list string) (overwrites : list Overwrite.t)
    (permissions : Z) : Z :=
  Z.lor (Z.land permissions (Z.lnot (combinedDeny roleIDs overwrites)))
        (combinedAllow roleIDs overwrites).

(** A capability-set string that is the sentinel or has the ADMINISTRATOR
    bit clear. *)
Definition sentinelOrClear (Permissions : Permission → Z) (bits : string) : Prop :=
  bits = "8" ∨ ∃ z, JS.StringToBigInt bits = Some z ∧ Z.land z (Permissions ADMINISTRATOR) = 0.

(** No overwrite of the channel mentions ADMINISTRATOR in a mask. *)
Definition noAdministratorOverwrite (Permissions : Permission → Z) (channel : Channel.t)
    : Prop :=
  Forall (λ overwrite,
            Z.land (maskOf (Overwrite.allow overwrite)) (Permissions ADMINISTRATOR) = 0
            ∧ Z.land (maskOf (Overwrite.deny overwrite)) (Permissions ADMINISTRATOR) = 0)
         (Channel.permissionOverwrites channel).

(** §4.4: role [a] outranks role [b]: the larger position, and on equal
    positions the smaller identity, identities being compared as the
    strings they are. *)
Definition outranks (a b : Role.t) : Prop :=
  Role.position a > Role.position b
  ∨ (Role.position a = Role.position b ∧ String.ltb (Role.id a) (Role.id b) = true).

End Spec.

(** ** Concrete snapshots *)
Module Snapshots.

Definition bitsOf (flags : list Permission) : string := calculateBits platformPermissions flags.

(** §8, end-to-end: guild G whose everyone role grants VIEW_CHANNEL, role R1
    (held by M) granting SEND_MESSAGES, channel C with an everyone overwrite
    denying SEND_MESSAGES and an overwrite of R1 allowing it. *)
Definition everyoneG : Role.t := Role.mk "G" 0 (bitsOf [VIEW_CHANNEL]).
Definition roleR1 : Role.t := Role.mk "R1" 1 (bitsOf [SEND_MESSAGES]).
Definition guildG : Guild.t :=
  Guild.mk "G" "O" (<["G" := everyoneG]> (<["R1" := roleR1]> ∅)).
Definition memberM : Member.t :=
  Member.mk "M" (<["G" := GuildMember.mk ["R1"]]> ∅).
Definition channelC : Channel.t :=
  Channel.mk "C" "G"
    [ Overwrite.mk "G" (bitsOf []) (bitsOf [SEND_MESSAGES]);
      Overwrite.mk "R1" (bitsOf [SEND_MESSAGES]) (bitsOf []) ].
(** A channel outside any guild. *)
Definition channelP : Channel.t := Channel.mk "P" "" [].
Definition cacheG : Cache :=
  {| guilds := <["G" := guildG]> ∅;
     members := <["M" := memberM]> ∅;
     channels := <["C" := channelC]> (<["P" := channelP]> ∅) |}.

(** A channel whose only overwrite is keyed by the index ["0"] and denies
    SEND_MESSAGES. *)
Definition channelIndexed : Channel.t :=
  Channel.mk "C0" "G" [ Overwrite.mk "0" (bitsOf []) (bitsOf [SEND_MESSAGES]) ].
Definition memberZero : Member.t :=
  Member.mk "M0" (<["G" := GuildMember.mk ["0"]]> ∅).

(** A channel of G with an overwrite of R1, which M holds, that allows
    SEND_MESSAGES, and an overwrite of M itself that denies it. *)
Definition channelDenied : Channel.t :=
  Channel.mk "K" "G"
    [ Overwrite.mk "R1" (bitsOf [SEND_MESSAGES]) (bitsOf []);
      Overwrite.mk "M" (bitsOf []) (bitsOf [SEND_MESSAGES]) ].
Definition cacheDenied : Cache :=
  {| guilds := <["G" := guildG]> ∅;
     members := <["M" := memberM]> ∅;
     channels := <["K" := channelDenied]> ∅ |}.

(** A channel of G whose everyone overwrite allows SEND_MESSAGES, and in
    which the overwrite of M denies SEND_MESSAGES and allows
    ADD_REACTIONS. *)
Definition channelEveryoneMember : Channel.t :=
  Channel.mk "E" "G"
    [ Overwrite.mk "G" (bitsOf [SEND_MESSAGES]) (bitsOf []);
      Overwrite.mk "M" (bitsOf [ADD_REACTIONS]) (bitsOf [SEND_MESSAGES]) ].


(** A guild known to the cache whose owner is not among the cached
    members, and whose everyone role carries a string that is no number. *)
Definition guildOwnerOnly : Guild.t :=
  Guild.mk "G" "O" (<["G" := Role.mk "G" 0 "not a number"]> ∅).
Definition cacheOwnerOnly : Cache :=
  {| guilds := <["G" := guildOwnerOnly]> ∅; members := ∅; channels := ∅ |}.

(** Three roles on one position; M holds "200" and "100". *)
Definition guildTie : Guild.t :=
  Guild.mk "G" "O"
    (<["G" := Role.mk "G" 0 "0"]>
       (<["100" := Role.mk "100" 5 "0"]>
          (<["150" := Role.mk "150" 5 "0"]>
             (<["200" := Role.mk "200" 5 "0"]> ∅)))).
Definition cacheTie (roleIDs : list string) : Cache :=
  {| guilds := <["G" := guildTie]> ∅;
     members := <["M" := Member.mk "M" (<["G" := GuildMember.mk roleIDs]> ∅)]> ∅;
     channels := ∅ |}.

End Snapshots.

(** ** The helpers that act for the bot (lines 142-150, 185-192, 210-218) *)

Section BotHelpers.

Variable Permissions : Permission → Z.
Variable cache : Cache.

(** [botID] of bot.ts, as [setBotID] left it. *)
Variable botID : string.

(** Checks if the bot has these permissions in the given guild. The call
    is [hasRolePermissions(guildID, botID, permissions)], the parameters of
    [hasRolePermissions] being [(memberID, guildID, permissions)]. *)
Definition botHasRolePermissions (guildID : string) (permissions : list Permission)
    : Promise bool :=
  async (await (hasRolePermissions Permissions cache guildID botID permissions)).

(** Throws an error if the bot has not all of the given permissions. *)
Definition botThrowOnMissingGuildPermission (guildID : string)
    (permissions : list Permission) : Promise unit :=
  throwOnMissingGuildPermission Permissions cache botID guildID permissions.

(** Throws an error if the bot has not all of the given channel
    permissions. *)
Definition botThrowOnMissingChannelPermission (channelID : string)
    (permissions : list Permission) : Promise unit :=
  async (await (throwOnMissingChannelPermission Permissions cache botID channelID permissions)).

End BotHelpers.

(** ** [calculatePermissions] (lines 220-228)

    [Permissions] is a numeric enum: at run time an object with a key per
    member name, holding the value, and a key per value, holding the name of
    the last member declared with it. [Object.keys] lists the value keys
    first, in ascending order, and the names next, in declaration order. *)
Section CalculatePermissions.

Variable Permissions : Permission → Z.

(** The members of the enum, in declaration order. *)
Variable declared : list Permission.

(** The members whose name a value key holds: those that no later member
    shares the value of. *)
Fixpoint reverseOwners (members : list Permission) : list Permission :=
  match members with
  | [] => []
  | member :: rest =>
      if existsb (λ later, Permissions later =? Permissions member) rest
      then reverseOwners rest
      else member :: reverseOwners rest
  end.

Inductive enumKey : Type :=
| ValueKey (owner : Permission)
| NameKey (member : Permission).

(** The order of the value keys. *)
Definition valueLe (p q : Permission) : Prop := Permissions p ≤ Permissions q.

#[global] Instance valueLe_dec : RelDecision valueLe :=
  λ p q, decide (Permissions p ≤ Permissions q).

Definition Object_keys : list enumKey :=
  (ValueKey <$> merge_sort valueLe (reverseOwners declared)) ++ (NameKey <$> declared).

(** The key as the string it is. *)
Definition keyString (key : enumKey) : string :=
  match key with
  | ValueKey owner => JS.toString (Permissions owner)
  | NameKey member => Permission_name member
  end.

(** The callback of the filter. For a value key [Number(permission)] is
    the value, and [Permissions[permission]] is the owner's name; for a name
    [Number(permission)] is [NaN]. *)
Definition keepKey (permissionBits : Z) (key : enumKey) : completion bool :=
  match key with
  | ValueKey owner =>
      if truthy_bigint (Permissions owner) then Return false
      else bits ← BigInt (Permission_name owner);
           Return (truthy_bigint (Z.land permissionBits bits))
  | NameKey member =>
      Return (truthy_bigint (Z.land permissionBits (Permissions member)))
  end.

Fixpoint filterKeys (permissionBits : Z) (keys : list enumKey) : completion (list string) :=
  match keys with
  | [] => Return []
  | key :: rest =>
      keepKey permissionBits key ≫= λ keep : bool,
      filterKeys permissionBits rest ≫= λ kept : list string,
      Return (if keep then keyString key :: kept else kept)
  end.

(** This function converts a bitwise string to permission strings. *)
Definition calculatePermissions (permissionBits : Z) : completion (list string) :=
  filterKeys permissionBits Object_keys.

End CalculatePermissions.

(** ** [higherThanRoleID] of the role structure (lines 482-498) *)

(** [!position] for [position : number | undefined]. *)
Definition falsy_position (position : option Z) : bool :=
  match position with
  | None => true
  | Some n => n =? 0
  end.

Definition higherThanRoleID_message : string :=
  "role.higherThanRoleID() did not have a position provided and the role or guild was not found in cache. Please provide a position like role.higherThanRoleID(roleID, position)".

(** [this.higherThanRoleID(roleID, position)]; [thisGuild] is the value of
    the getter [this.guild] ([None] when no cached guild has the role). *)
Definition higherThanRoleID (this : Role.t) (thisGuild : option Guild.t)
    (roleID : string) (position : option Z) : completion bool :=
  let position :=
    if falsy_position position
    then thisGuild ≫= (λ guild, Role.position <$> Guild.roles guild !! roleID)
    else position in
  match position with
  | Some position =>
      if position =? 0 then Throw (Error higherThanRoleID_message)
      else if Role.position this =? position
           then Return (String.ltb (Role.id this) roleID)
           else Return (Role.position this >? position)
  | None => Throw (Error higherThanRoleID_message)
  end.

(** ** The channel [createChannel] builds (lines 340-378)

    The fields of the payload that end in the fields of [Channel.t]. *)
Module ChannelPayload.
Record t : Type :=
  mk { id : string;
       guild_id : option string;
       permission_overwrites : option (list Overwrite.t) }.
End ChannelPayload.

(** [guildID || rawGuildID], with [rawGuildID] defaulting to [""], and
    [permissionOverwrites] defaulting to [[]]. *)
Definition createChannel_channel (data : ChannelPayload.t) (guildID : option string)
    : Channel.t :=
  let rawGuildID := default "" (ChannelPayload.guild_id data) in
  Channel.mk (ChannelPayload.id data)
    (match guildID with
     | Some id => if truthy_string id then id else rawGuildID
     | None => rawGuildID
     end)
    (default [] (ChannelPayload.permission_overwrites data)).

(** The mask that [calculateBits] prints. *)
Definition flagsMask (Permissions : Permission → Z) (flags : list Permission) : Z :=
  fold_left (λ bits perm, Z.lor bits (Permissions perm)) flags 0.

(** ** The last shard of [startBigBrainBot] (bot.ts, lines 110-117)

    The fourth argument of [spawnShards]:
    [data.lastShardID || botGatewayData.shards >= 25 ? data.firstShardID + 25 : botGatewayData.shards],
    in which [||] binds tighter than [? :]. [None] is an absent
    [lastShardID]. *)
Definition startBigBrainBot_lastShard (lastShardID : option Z) (firstShardID shards : Z) : Z :=
  if negb (falsy_position lastShardID) || (shards >=? 25)
  then firstShardID + 25
  else shards.

#[global] Instance Permission_eq_dec : EqDecision Permission.
Proof. solve_decision. Defined.

(** Modelled from the spec: the declaration order that goes with
    [platformPermissions], the order of the platform's bit positions. *)
Definition platformDeclared : list Permission :=
  [ CREATE_INSTANT_INVITE; KICK_MEMBERS; BAN_MEMBERS; ADMINISTRATOR;
    MANAGE_CHANNELS; MANAGE_GUILD; ADD_REACTIONS; VIEW_AUDIT_LOG;
    PRIORITY_SPEAKER; STREAM; VIEW_CHANNEL; SEND_MESSAGES;
    SEND_TTS_MESSAGES; MANAGE_MESSAGES; EMBED_LINKS; ATTACH_FILES;
    READ_MESSAGE_HISTORY; MENTION_EVERYONE; USE_EXTERNAL_EMOJIS;
    VIEW_GUILD_INSIGHTS; CONNECT; SPEAK; MUTE_MEMBERS; DEAFEN_MEMBERS;
    MOVE_MEMBERS; USE_VAD; CHANGE_NICKNAME; MANAGE_NICKNAMES;
    MANAGE_ROLES; MANAGE_WEBHOOKS; MANAGE_EMOJIS ].

(** A table with a member of value zero: [platformPermissions] with
    CREATE_INSTANT_INVITE moved to [0]. *)
Definition zeroMemberPermissions (p : Permission) : Z :=
  match p with
  | CREATE_INSTANT_INVITE => 0
  | _ => platformPermissions p
  end.

(** * Facts about the run-time fragments *)

Module JSFacts.
Import JS.

Lemma decimal_char c d :
  digitValue c = Some d → (d <? 10)%N = true →
  isStrWhiteSpaceChar c = false ∧ Ascii.eqb c "+" = false ∧ Ascii.eqb c "-" = false
  ∧ isOneOf c "x" "X" = false ∧ isOneOf c "o" "O" = false ∧ isOneOf c "b" "B" = false.
Proof.
  destruct c as [[] [] [] [] [] [] [] []]; vm_compute; intros [= <-] H;
    try discriminate; repeat split.
Qed.

Lemma decimalDigits_string_of_uint d : decimalDigits (NilEmpty.string_of_uint d) = true.
Proof. induction d; simpl; auto. Qed.

Lemma digitsValue_cons c r acc d :
  digitValue c = Some d → (d <? 10)%N = true →
  digitsValue 10 (String c r) acc = digitsValue 10 r (acc * 10 + d)%N.
Proof. intros Hc Hd. cbn [digitsValue]. by rewrite Hc, Hd. Qed.

Ltac digit_step IH :=
  cbn [NilEmpty.string_of_uint Pos.of_uint_acc Pos.of_uint];
  erewrite digitsValue_cons; [ | reflexivity | reflexivity ];
  match goal with
  | |- context [(N_of_ascii ?c - 48)%N] =>
      let v := eval vm_compute in (N_of_ascii c - 48)%N in
      change (N_of_ascii c - 48)%N with v
  end;
  try rewrite <- IH; try (f_equal; lia).

Lemma digitsValue_of_uint_acc d p :
  digitsValue 10 (NilEmpty.string_of_uint d) (N.pos p) = Some (N.pos (Pos.of_uint_acc d p)).
Proof.
  revert p; induction d; intros p; [ reflexivity | digit_step IHd .. ].
Qed.

Lemma digitsValue_of_uint d :
  digitsValue 10 (NilEmpty.string_of_uint d) 0 = Some (Pos.of_uint d).
Proof.
  induction d; [ reflexivity | digit_step IHd | .. ].
  all: digit_step IHd; apply digitsValue_of_uint_acc.
Qed.

Lemma trimEnd_decimal s : decimalDigits s = true → trimEnd s = s.
Proof.
  induction s as [ | c r IH ]; [ done | ].
  cbn [decimalDigits trimEnd]. destruct (digitValue c) as [ d | ] eqn:Hc; [ | done ].
  intros [Hd Hr]%andb_prop. rewrite (IH Hr).
  destruct (decimal_char c d Hc Hd) as [-> _]. by destruct r.
Qed.

Lemma trimStart_head c r : isStrWhiteSpaceChar c = false → trimStart (String c r) = String c r.
Proof. intros H. cbn. by rewrite H. Qed.

Lemma StrIntegerLiteral_decimal s :
  decimalDigits s = true → StrIntegerLiteral s = Z.of_N <$> parseDigits 10 s.
Proof.
  destruct s as [ | c r ]; [ done | ].
  cbn [decimalDigits]. destruct (digitValue c) as [ d | ] eqn:Hc; [ | done ].
  intros [Hd Hr]%andb_prop.
  destruct (decimal_char c d Hc Hd) as (_ & Hplus & Hminus & _).
  unfold StrIntegerLiteral. rewrite Hplus, Hminus.
  destruct r as [ | p r' ]; [ done | ].
  cbn [decimalDigits] in Hr. destruct (digitValue p) as [ d' | ] eqn:Hp; [ | done ].
  apply andb_prop in Hr as [Hd' _].
  destruct (decimal_char p d' Hp Hd') as (_ & _ & _ & -> & -> & ->).
  by rewrite !andb_false_r.
Qed.

Lemma StringToBigInt_decimal d :
  d ≠ Decimal.Nil →
  StringToBigInt (NilEmpty.string_of_uint d) = Some (Z.of_N (Pos.of_uint d)).
Proof.
  intros Hd. pose proof (decimalDigits_string_of_uint d) as Hdec.
  unfold StringToBigInt, trim.
  assert (Hne : NilEmpty.string_of_uint d ≠ "") by (by destruct d).
  destruct (NilEmpty.string_of_uint d) as [ | c r ] eqn:Hs; [ done | ].
  assert (Hws : isStrWhiteSpaceChar c = false).
  { cbn [decimalDigits] in Hdec. destruct (digitValue c) as [ k | ] eqn:Hc; [ | done ].
    apply andb_prop in Hdec as [Hk _]. by destruct (decimal_char c k Hc Hk). }
  rewrite (trimStart_head _ _ Hws), (trimEnd_decimal _ Hdec).
  rewrite (StrIntegerLiteral_decimal _ Hdec). cbn [parseDigits].
  by rewrite <- Hs, digitsValue_of_uint.
Qed.

Lemma to_uint_nonnil p : Pos.to_uint p ≠ Decimal.Nil.
Proof.
  intros H. pose proof (DecimalPos.Unsigned.of_to p) as E. rewrite H in E. discriminate.
Qed.

Lemma NilZero_string_of_uint d :
  d ≠ Decimal.Nil → NilZero.string_of_uint d = NilEmpty.string_of_uint d.
Proof. by destruct d. Qed.

Lemma toString_pos p : toString (Z.pos p) = NilEmpty.string_of_uint (Pos.to_uint p).
Proof. apply NilZero_string_of_uint, to_uint_nonnil. Qed.

Lemma toString_neg p :
  toString (Z.neg p) = String "-" (NilEmpty.string_of_uint (Pos.to_uint p)).
Proof.
  unfold toString. cbn [Z.to_int NilZero.string_of_int].
  f_equal. apply NilZero_string_of_uint, to_uint_nonnil.
Qed.

(** [BigInt(z.toString())] is [z]. *)
Lemma StringToBigInt_toString z : StringToBigInt (toString z) = Some z.
Proof.
  destruct z as [ | p | p ]; [ reflexivity | | ].
  - rewrite toString_pos, (StringToBigInt_decimal _ (to_uint_nonnil p)).
    by rewrite DecimalPos.Unsigned.of_to.
  - rewrite toString_neg.
    pose proof (decimalDigits_string_of_uint (Pos.to_uint p)) as Hdec.
    pose proof (digitsValue_of_uint (Pos.to_uint p)) as Hval.
    rewrite DecimalPos.Unsigned.of_to in Hval.
    assert (Hne : NilEmpty.string_of_uint (Pos.to_uint p) ≠ "")
      by (pose proof (to_uint_nonnil p); by destruct (Pos.to_uint p)).
    unfold StringToBigInt, trim. rewrite trimStart_head by reflexivity.
    cbn [trimEnd]. rewrite (trimEnd_decimal _ Hdec).
    destruct (NilEmpty.string_of_uint (Pos.to_uint p)) as [ | c r ]; [ done | ].
    cbn [StrIntegerLiteral].
    change (Ascii.eqb "-" "+") with false. change (Ascii.eqb "-" "-") with true.
    cbn [parseDigits]. by rewrite Hval.
Qed.

End JSFacts.

Lemma BigInt_toString z : BigInt (JS.toString z) = Return z.
Proof. unfold BigInt. by rewrite JSFacts.StringToBigInt_toString. Qed.

Lemma toString_inj z1 z2 : JS.toString z1 = JS.toString z2 → z1 = z2.
Proof.
  intros H. pose proof (JSFacts.StringToBigInt_toString z1) as H1.
  rewrite H, JSFacts.StringToBigInt_toString in H1. congruence.
Qed.

Lemma toString_sentinel z : JS.toString z = "8" ↔ z = 8.
Proof. split; [ apply (toString_inj z 8) | by intros -> ]. Qed.

Lemma BigInt_Return s z : BigInt s = Return z ↔ JS.StringToBigInt s = Some z.
Proof. unfold BigInt. destruct (JS.StringToBigInt s); split; congruence. Qed.

Lemma truthy_bigint_false z : truthy_bigint z = false ↔ z = 0.
Proof. unfold truthy_bigint. rewrite negb_false_iff. apply Z.eqb_eq. Qed.

Lemma truthy_bigint_true z : truthy_bigint z = true ↔ z ≠ 0.
Proof. unfold truthy_bigint. rewrite negb_true_iff. apply Z.eqb_neq. Qed.

Lemma truthy_string_false s : truthy_string s = false ↔ s = "".
Proof. unfold truthy_string. rewrite negb_false_iff. apply String.eqb_eq. Qed.

(** * The base permission resolver *)

Section BasePermissions.

Variable Permissions : Permission → Z.
Variable cache : Cache.

(** The reduction visits the truthy permission strings in order; when each
    resolved role denotes a capability set, it ends with the OR of these
    sets on top of the accumulator. *)
Lemma reduceBits_unionOf (guild : Guild.t) (ids : list string) (bits : Z) :
  Forall (λ role, is_Some (Spec.capabilitySet role))
         (omap (λ id, Guild.roles guild !! id) ids) →
  reduceBits (rolePermissions guild ids) bits
  = Return (Z.lor bits (Spec.unionOf (omap (λ id, Guild.roles guild !! id) ids))).
Proof.
  revert bits. induction ids as [ | id ids IH ]; intros bits Hall.
  - cbn. by rewrite Z.lor_0_r.
  - unfold rolePermissions in *. cbn [omap list_omap] in *.
    destruct (Guild.roles guild !! id) as [ role | ] eqn:Hrole; cbn [fmap option_fmap option_map].
    + apply Forall_cons in Hall as [[z Hz] Hall].
      unfold Spec.capabilitySet in Hz. cbn [Spec.unionOf fold_right].
      unfold Spec.maskOf at 1. rewrite Hz. cbn [default].
      destruct (truthy_string (Role.permissions role)) eqn:Htruthy.
      * cbn [reduceBits]. unfold BigInt. rewrite Hz. cbn.
        rewrite (IH _ Hall). by rewrite Z.lor_assoc.
      * apply truthy_string_false in Htruthy. rewrite Htruthy in Hz.
        injection Hz as <-. rewrite (IH _ Hall). by rewrite Z.lor_0_l.
    + by apply IH.
Qed.

(** A role whose permission string is no integer literal makes the
    aggregation throw. *)
Lemma reduceBits_SyntaxError (l : list string) (bits : Z) :
  Exists (λ perms, JS.StringToBigInt perms = None) l →
  reduceBits l bits = Throw SyntaxError.
Proof.
  revert bits. induction l as [ | perms l IH ]; intros bits Hex.
  - by apply Exists_nil in Hex.
  - cbn [reduceBits]. unfold BigInt.
    destruct (JS.StringToBigInt perms) as [ z | ] eqn:Hz; [ | done ].
    apply Exists_cons in Hex as [ Hex | Hex ]; [ congruence | ]. cbn. by apply IH.
Qed.

(** With a candidate role whose non-empty permission string is no integer
    literal, the call throws. *)
Lemma computeBasePermissions_SyntaxError
    (memberID guildID : string) (guild : Guild.t) (member : Member.t) :
  guilds cache !! guildID = Some guild →
  Guild.ownerID guild ≠ memberID →
  members cache !! memberID = Some member →
  Exists (λ perms, JS.StringToBigInt perms = None)
         (rolePermissions guild (default [] (memberRoles member guildID) ++ [guildID])) →
  await (computeBasePermissions Permissions cache memberID guildID) = Throw SyntaxError.
Proof.
  intros Hguild Howner Hmember Hex.
  unfold computeBasePermissions, async, await. rewrite Hguild.
  apply String.eqb_neq in Howner. rewrite Howner, Hmember.
  by rewrite (reduceBits_SyntaxError _ _ Hex).
Qed.

(** C4. For a member that is not the owner and is present in the cache,
    [computeBasePermissions] returns the sentinel ["8"] exactly when the OR
    of the capability sets of the resolvable candidate roles (the member's
    recorded roles and the everyone role, unresolvable IDs dropped) has the
    ADMINISTRATOR bit, and the decimal form of that OR otherwise; the test is
    made once, on the aggregate. *)
Theorem C4_base_permissions_aggregate
    (memberID guildID : string) (guild : Guild.t) (member : Member.t) :
  guilds cache !! guildID = Some guild →
  Guild.ownerID guild ≠ memberID →
  members cache !! memberID = Some member →
  Forall (λ role, is_Some (Spec.capabilitySet role))
         (Spec.candidateRoles guild member guildID) →
  let union := Spec.unionOf (Spec.candidateRoles guild member guildID) in
  await (computeBasePermissions Permissions cache memberID guildID)
  = Return (if bool_decide (Z.land union (Permissions ADMINISTRATOR) ≠ 0)
            then "8" else JS.toString union).
Proof.
  intros Hguild Howner Hmember Hsets union.
  unfold computeBasePermissions, async, await. rewrite Hguild.
  apply String.eqb_neq in Howner. rewrite Howner, Hmember.
  unfold Spec.candidateRoles in *. unfold memberRoles.
  rewrite (reduceBits_unionOf _ _ _ Hsets). cbn [mbind completion_bind].
  rewrite !Z.lor_0_l. fold union.
  destruct (truthy_bigint (Z.land union (Permissions ADMINISTRATOR))) eqn:Hadmin.
  - apply truthy_bigint_true in Hadmin. by rewrite bool_decide_eq_true_2.
  - apply truthy_bigint_false in Hadmin. rewrite bool_decide_eq_false_2; [ done | ].
    intros Hne. by apply Hne.
Qed.

(** C5. For a guild present in the cache, [computeBasePermissions] called
    with the owner's ID returns the sentinel ["8"]: the members, the owner's
    roles and their permission strings are not looked at. *)
Theorem C5_owner_sentinel (guildID : string) (guild : Guild.t) :
  guilds cache !! guildID = Some guild →
  await (computeBasePermissions Permissions cache (Guild.ownerID guild) guildID)
  = Return "8".
Proof.
  intros Hguild. unfold computeBasePermissions, async, await.
  by rewrite Hguild, String.eqb_refl.
Qed.

(** C6, as amended. [computeBasePermissions] fails with GUILD_NOT_FOUND
    when the guild is absent from the cache; when the guild is present, the
    member ID is not the owner's and the member is absent, it fails with
    MEMBER_NOT_FOUND; for the owner's ID it returns the sentinel whether or
    not the owner is a cached member. *)
Theorem C6_not_found (memberID guildID : string) :
  (guilds cache !! guildID = None →
   await (computeBasePermissions Permissions cache memberID guildID)
   = Throw (Error Errors.GUILD_NOT_FOUND))
  ∧ (∀ guild,
       guilds cache !! guildID = Some guild →
       Guild.ownerID guild ≠ memberID →
       members cache !! memberID = None →
       await (computeBasePermissions Permissions cache memberID guildID)
       = Throw (Error Errors.MEMBER_NOT_FOUND))
  ∧ (∀ guild,
       guilds cache !! guildID = Some guild →
       Guild.ownerID guild = memberID →
       await (computeBasePermissions Permissions cache memberID guildID)
       = Return "8").
Proof.
  unfold computeBasePermissions, async, await. repeat split.
  - by intros ->.
  - intros guild -> Howner ->. apply String.eqb_neq in Howner. by rewrite Howner.
  - intros guild -> <-. by rewrite String.eqb_refl.
Qed.

End BasePermissions.

(** The aggregate of C4 on the snapshot of §8: M holds R1, the everyone role
    grants VIEW_CHANNEL, R1 grants SEND_MESSAGES. *)
Lemma C4_witness :
  await (computeBasePermissions platformPermissions Snapshots.cacheG "M" "G")
  = Return "3072".
Proof.
  refine (C4_base_permissions_aggregate platformPermissions Snapshots.cacheG
            "M" "G" Snapshots.guildG Snapshots.memberM _ _ _ _).
  - reflexivity.
  - discriminate.
  - reflexivity.
  - vm_compute. repeat constructor; eexists; reflexivity.
Defined.

(** The owner of a guild whose everyone role holds a string that is no
    number, and who is not a cached member, still gets the sentinel. *)
Lemma C5_witness :
  await (computeBasePermissions platformPermissions Snapshots.cacheOwnerOnly "O" "G")
  = Return "8".
Proof.
  apply (C5_owner_sentinel platformPermissions Snapshots.cacheOwnerOnly
           "G" Snapshots.guildOwnerOnly).
  reflexivity.
Defined.

(** C6 as stated fails for the owner's ID: the guild is cached, the owner
    is not a cached member, and the call does not fail with
    MEMBER_NOT_FOUND. *)
Lemma C6_counterexample :
  guilds Snapshots.cacheOwnerOnly !! "G" = Some Snapshots.guildOwnerOnly
  ∧ members Snapshots.cacheOwnerOnly !! "O" = None
  ∧ await (computeBasePermissions platformPermissions Snapshots.cacheOwnerOnly "O" "G")
    ≠ Throw (Error Errors.MEMBER_NOT_FOUND).
Proof. repeat split. vm_compute. discriminate. Qed.

Lemma C6_witness :
  await (computeBasePermissions platformPermissions Snapshots.cacheOwnerOnly "M" "H")
  = Throw (Error Errors.GUILD_NOT_FOUND)
  ∧ await (computeBasePermissions platformPermissions Snapshots.cacheOwnerOnly "M" "G")
    = Throw (Error Errors.MEMBER_NOT_FOUND)
  ∧ await (computeBasePermissions platformPermissions Snapshots.cacheOwnerOnly "O" "G")
    = Return "8".
Proof.
  split; [ | split ].
  - apply (C6_not_found platformPermissions Snapshots.cacheOwnerOnly "M" "H").
    reflexivity.
  - apply (proj1 (proj2 (C6_not_found platformPermissions Snapshots.cacheOwnerOnly "M" "G"))
             Snapshots.guildOwnerOnly); [ reflexivity | discriminate | reflexivity ].
  - apply (proj2 (proj2 (C6_not_found platformPermissions Snapshots.cacheOwnerOnly "O" "G"))
             Snapshots.guildOwnerOnly); reflexivity.
Defined.

(** * The permission-set algebra *)

Section PermissionSets.

Variable Permissions : Permission → Z.
Variable cache : Cache.

(** What [computeBasePermissions] returns is the sentinel or the decimal
    form of a bitmask without the ADMINISTRATOR bit. *)
Lemma computeBasePermissions_Return (memberID guildID bits : string) :
  await (computeBasePermissions Permissions cache memberID guildID) = Return bits →
  bits = "8" ∨ ∃ z, bits = JS.toString z ∧ Z.land z (Permissions ADMINISTRATOR) = 0.
Proof.
  unfold computeBasePermissions, async, await.
  destruct (guilds cache !! guildID) as [ guild | ]; [ | done ].
  destruct (String.eqb (Guild.ownerID guild) memberID); [ intros [= <-]; by left | ].
  destruct (members cache !! memberID) as [ member | ]; [ | done ].
  destruct (reduceBits _ 0) as [ z | e ]; [ | done ]. cbn [mbind completion_bind].
  destruct (truthy_bigint _) eqn:Hadmin; intros [= <-]; [ by left | right ].
  apply truthy_bigint_false in Hadmin. eauto.
Qed.

(** The loop of [missingPermissions] appends, in the order asked for, the
    flags that have no bit in the mask. *)
Lemma missingLoop_filter (permissionBits : string) (z : Z)
    (permissions missing : list Permission) :
  JS.StringToBigInt permissionBits = Some z →
  missingLoop Permissions permissionBits permissions missing
  = Return (missing ++ filter (λ p, Z.land z (Permissions p) = 0) permissions)%list.
Proof.
  intros Hz. revert missing.
  induction permissions as [ | p permissions IH ]; intros missing.
  - cbn. by rewrite app_nil_r.
  - cbn [missingLoop]. unfold BigInt. rewrite Hz. cbn [mbind completion_bind].
    rewrite filter_cons. destruct (truthy_bigint (Z.land z (Permissions p))) eqn:Hp; cbn [negb].
    + apply truthy_bigint_true in Hp. rewrite decide_False by done. apply IH.
    + apply truthy_bigint_false in Hp. rewrite decide_True by done.
      rewrite IH. by rewrite <- app_assoc.
Qed.

(** errors.ts has a MISSING_ member for every flag of the catalog. *)
Lemma Errors_MISSING (p : Permission) :
  Errors.get ("MISSING_" ++ Permission_name p) = Some ("MISSING_" ++ Permission_name p).
Proof. destruct p; reflexivity. Qed.

(** C9. For a permission-bit string other than the sentinel that denotes
    the mask [z], [missingPermissions] returns the required flags without a
    bit in [z], in the order asked for; for the sentinel it returns the empty
    list; and on the bits that [computeBasePermissions] returns, which always
    denote a mask, [throwOnMissingGuildPermission] throws nothing when no
    required flag is missing and otherwise the one error named MISSING_ plus
    the first missing flag. *)
Theorem C9_missing_permissions :
  (∀ (permissionBits : string) (z : Z) (permissions : list Permission),
     permissionBits ≠ "8" →
     JS.StringToBigInt permissionBits = Some z →
     missingPermissions Permissions permissionBits permissions
     = Return (filter (λ p, Z.land z (Permissions p) = 0) permissions))
  ∧ (∀ permissions : list Permission,
       missingPermissions Permissions "8" permissions = Return [])
  ∧ (∀ (memberID guildID permissionBits : string) (permissions : list Permission),
       await (computeBasePermissions Permissions cache memberID guildID)
       = Return permissionBits →
       ∃ z,
         JS.StringToBigInt permissionBits = Some z
         ∧ await (throwOnMissingGuildPermission Permissions cache memberID guildID permissions)
           = match (if bool_decide (permissionBits = "8") then []
                    else filter (λ p, Z.land z (Permissions p) = 0) permissions) with
             | [] => Return tt
             | first :: _ => Throw (Error ("MISSING_" ++ Permission_name first))
             end).
Proof.
  assert (∀ (permissionBits : string) (z : Z) (permissions : list Permission),
            JS.StringToBigInt permissionBits = Some z →
            missingPermissions Permissions permissionBits permissions
            = Return (if bool_decide (permissionBits = "8") then []
                      else filter (λ p, Z.land z (Permissions p) = 0) permissions))
    as Hmissing.
  { intros permissionBits z permissions Hz. unfold missingPermissions.
    destruct (String.eqb_spec permissionBits "8") as [ -> | Hne ].
    - by rewrite bool_decide_eq_true_2.
    - rewrite bool_decide_eq_false_2 by done. by rewrite (missingLoop_filter _ z). }
  split; [ | split ].
  - intros permissionBits z permissions Hne Hz.
    rewrite (Hmissing _ z _ Hz). by rewrite bool_decide_eq_false_2.
  - done.
  - intros memberID guildID permissionBits permissions Hbase.
    assert (∃ z, JS.StringToBigInt permissionBits = Some z) as [z Hz].
    { destruct (computeBasePermissions_Return _ _ _ Hbase) as [ -> | (z & -> & _) ].
      - by exists 8.
      - exists z. apply JSFacts.StringToBigInt_toString. }
    exists z. split; [ done | ].
    unfold throwOnMissingGuildPermission.
    change (await (async ?c)) with c. rewrite Hbase. cbn [mbind completion_bind].
    rewrite (Hmissing _ z _ Hz). cbn [mbind completion_bind].
    destruct (if bool_decide (permissionBits = "8") then [] else _)
      as [ | first rest ]; [ done | ].
    unfold throwFirstMissing, new_Error. by rewrite Errors_MISSING.
Qed.

(** When [computeBasePermissions] fails, its error is the one thrown. *)
Lemma throwOnMissingGuildPermission_base_error
    (memberID guildID : string) (permissions : list Permission) (e : exn) :
  await (computeBasePermissions Permissions cache memberID guildID) = Throw e →
  await (throwOnMissingGuildPermission Permissions cache memberID guildID permissions)
  = Throw e.
Proof.
  intros Hbase. unfold throwOnMissingGuildPermission.
  change (await (async ?c)) with c. by rewrite Hbase.
Qed.

(** Asking for ADMINISTRATOR alone: on a string that is the sentinel or
    has the bit clear, [validatePermissions] answers by the sentinel test. *)
Lemma validatePermissions_ADMINISTRATOR (bits : string) :
  Spec.sentinelOrClear Permissions bits →
  validatePermissions Permissions bits [ADMINISTRATOR]
  = Return (bool_decide (bits = "8")).
Proof.
  intros [ -> | (z & Hz & Hclear) ]; [ done | ].
  unfold validatePermissions. destruct (String.eqb_spec bits "8") as [ -> | Hne ].
  - by rewrite bool_decide_eq_true_2.
  - rewrite bool_decide_eq_false_2 by done. cbn [everyPermission].
    unfold BigInt. rewrite Hz. cbn [mbind completion_bind]. by rewrite Hclear.
Qed.

End PermissionSets.

(** On the snapshot of §8 the base permissions of M are VIEW_CHANNEL and
    SEND_MESSAGES: of the flags asked for, MANAGE_ROLES and KICK_MEMBERS are
    missing, in that order, and the first one names the error. *)
Lemma C9_witness :
  missingPermissions platformPermissions "3072"
    [VIEW_CHANNEL; MANAGE_ROLES; SEND_MESSAGES; KICK_MEMBERS]
  = Return [MANAGE_ROLES; KICK_MEMBERS]
  ∧ missingPermissions platformPermissions "8" [MANAGE_ROLES; KICK_MEMBERS] = Return []
  ∧ await (throwOnMissingGuildPermission platformPermissions Snapshots.cacheG "M" "G"
             [VIEW_CHANNEL; MANAGE_ROLES; SEND_MESSAGES; KICK_MEMBERS])
    = Throw (Error "MISSING_MANAGE_ROLES")
  ∧ await (throwOnMissingGuildPermission platformPermissions Snapshots.cacheG "M" "G"
             [VIEW_CHANNEL; SEND_MESSAGES])
    = Return tt.
Proof.
  pose proof (C9_missing_permissions platformPermissions Snapshots.cacheG)
    as (Hmissing & Hsentinel & Hthrow).
  split; [ | split; [ | split ] ].
  - apply (Hmissing "3072" 3072); [ discriminate | reflexivity ].
  - apply Hsentinel.
  - destruct (Hthrow "M" "G" "3072" [VIEW_CHANNEL; MANAGE_ROLES; SEND_MESSAGES; KICK_MEMBERS]
                eq_refl) as (z & Hz & ->).
    injection Hz as <-. reflexivity.
  - destruct (Hthrow "M" "G" "3072" [VIEW_CHANNEL; SEND_MESSAGES] eq_refl)
      as (z & Hz & ->).
    injection Hz as <-. reflexivity.
Defined.

(** * Role ranking *)

Section StringOrder.

Lemma Ascii_compare_refl (c : ascii) : Ascii.compare c c = Eq.
Proof. unfold Ascii.compare. apply N.compare_refl. Qed.

Lemma Ascii_compare_Lt_trans (a b c : ascii) :
  Ascii.compare a b = Lt → Ascii.compare b c = Lt → Ascii.compare a c = Lt.
Proof. unfold Ascii.compare. rewrite !N.compare_lt_iff. lia. Qed.

Lemma String_compare_refl (s : string) : String.compare s s = Eq.
Proof. induction s as [ | c s IH ]; [ done | ]. cbn. by rewrite Ascii_compare_refl. Qed.

Lemma String_compare_Lt_trans (s t u : string) :
  String.compare s t = Lt → String.compare t u = Lt → String.compare s u = Lt.
Proof.
  revert t u. induction s as [ | a s IH ]; intros [ | b t ] [ | c u ]; cbn; try done.
  destruct (Ascii.compare a b) eqn:Hab; [ | | done ];
    destruct (Ascii.compare b c) eqn:Hbc; try done.
  - apply Ascii.compare_eq_iff in Hab, Hbc. subst. rewrite Ascii_compare_refl. apply IH.
  - apply Ascii.compare_eq_iff in Hab. subst. by rewrite Hbc.
  - apply Ascii.compare_eq_iff in Hbc. subst. by rewrite Hab.
  - by rewrite (Ascii_compare_Lt_trans _ _ _ Hab Hbc).
Qed.

Lemma ltb_Lt (s t : string) : String.ltb s t = true ↔ String.compare s t = Lt.
Proof. unfold String.ltb. by destruct (String.compare s t). Qed.

Lemma ltb_irrefl (s : string) : String.ltb s s = false.
Proof. unfold String.ltb. by rewrite String_compare_refl. Qed.

Lemma ltb_trans (s t u : string) :
  String.ltb s t = true → String.ltb t u = true → String.ltb s u = true.
Proof. rewrite !ltb_Lt. apply String_compare_Lt_trans. Qed.

Lemma ltb_total (s t : string) :
  s ≠ t → String.ltb s t = true ∨ String.ltb t s = true.
Proof.
  intros Hne. rewrite !ltb_Lt. destruct (String.compare s t) eqn:Hst.
  - by apply String.compare_eq_iff in Hst.
  - by left.
  - right. rewrite String.compare_antisym, Hst. done.
Qed.

(** The ranking of §4.4 is a strict order, total on roles of distinct
    identities. *)
Lemma outranks_irrefl (a : Role.t) : ¬ Spec.outranks a a.
Proof. intros [ H | [_ H] ]; [ lia | by rewrite ltb_irrefl in H ]. Qed.

Lemma outranks_trans (a b c : Role.t) :
  Spec.outranks a b → Spec.outranks b c → Spec.outranks a c.
Proof.
  unfold Spec.outranks. intros [ Hab | [Hab Hid] ] [ Hbc | [Hbc Hid'] ].
  - left. lia.
  - left. lia.
  - left. lia.
  - right. split; [ lia | by apply (ltb_trans _ (Role.id b)) ].
Qed.

Lemma outranks_total (a b : Role.t) :
  Role.id a ≠ Role.id b → Spec.outranks a b ∨ Spec.outranks b a.
Proof.
  intros Hne. unfold Spec.outranks.
  destruct (Z.lt_trichotomy (Role.position a) (Role.position b)) as [ Hlt | [ Heq | Hgt ] ].
  - right. left. lia.
  - destruct (ltb_total _ _ Hne); [ left | right ]; right; split; done || lia.
  - left. left. lia.
Qed.

End StringOrder.

Section DecimalIdentities.

Import JS.






End DecimalIdentities.

(** Identities of different lengths: the string "99" is not below "100". *)
Example ltb_different_length :
  String.ltb "99" "100" = false ∧ String.ltb "100" "99" = true.
Proof. split; reflexivity. Qed.

Section RoleRanking.

Variable cache : Cache.

Lemma comparePosition_outranks (a b : Role.t) :
  comparePosition a b = true ↔ Spec.outranks a b.
Proof.
  unfold comparePosition, Spec.outranks.
  destruct (Z.eqb_spec (Role.position a) (Role.position b)) as [ Heq | Hne ].
  - split; [ intros H; right; done | intros [ Hgt | [_ H] ]; [ lia | done ] ].
  - rewrite Z.gtb_gt. split; [ by left | intros [ Hgt | [Heq _] ]; [ done | lia ] ].
Qed.


(** A role that is not in the guild makes the comparison fail. *)
Lemma higherRolePosition_ROLE_NOT_FOUND
    (guildID roleID otherRoleID : string) (guild : Guild.t) :
  guilds cache !! guildID = Some guild →
  Guild.roles guild !! roleID = None ∨ Guild.roles guild !! otherRoleID = None →
  await (higherRolePosition cache guildID roleID otherRoleID)
  = Throw (Error Errors.ROLE_NOT_FOUND).
Proof.
  intros Hguild Hmiss. unfold higherRolePosition, async, await. rewrite Hguild.
  destruct Hmiss as [ -> | -> ]; [ done | by destruct (Guild.roles guild !! roleID) ].
Qed.

(** The guild owner is above every role, in the guild or not. *)
Lemma isHigherPosition_owner (guildID compareRoleID : string) (guild : Guild.t) :
  guilds cache !! guildID = Some guild →
  await (isHigherPosition cache guildID (Guild.ownerID guild) compareRoleID)
  = Return true.
Proof.
  intros Hguild. unfold isHigherPosition, async, await.
  by rewrite Hguild, String.eqb_refl.
Qed.

(** The loop of [highestRole] keeps a role of the largest position among
    the resolvable ones: no resolvable role of the list has a larger
    position than the role it ends with. *)
Lemma highestRoleLoop_position (roles : gmap string Role.t) (roleIDs : list string)
    (start highest : option Role.t) :
  highestRoleLoop roles roleIDs start = highest →
  (∀ role, start = Some role → ∃ h, highest = Some h ∧ Role.position role ≤ Role.position h)
  ∧ (∀ roleID role, roleID ∈ roleIDs → roles !! roleID = Some role →
       ∃ h, highest = Some h ∧ Role.position role ≤ Role.position h).
Proof.
  revert start. induction roleIDs as [ | roleID roleIDs IH ]; intros start Hloop.
  - cbn in Hloop. subst. split.
    + intros role [= ->]. exists role. split; [ done | lia ].
    + intros ? ? Hin. by apply elem_of_nil in Hin.
  - cbn [highestRoleLoop] in Hloop.
    destruct (roles !! roleID) as [ role | ] eqn:Hrole.
    + destruct start as [ h0 | ].
      * destruct (Z.ltb_spec (Role.position h0) (Role.position role)) as [ Hlt | Hge ].
        -- destruct (IH _ Hloop) as [Hstart Hrest]. split.
           ++ intros r [= <-]. destruct (Hstart role eq_refl) as (h & -> & Hle).
              exists h. split; [ done | lia ].
           ++ intros id r [ -> | Hin ]%elem_of_cons Hr.
              ** rewrite Hrole in Hr. injection Hr as <-. by apply Hstart.
              ** by apply (Hrest id).
        -- destruct (IH _ Hloop) as [Hstart Hrest]. split.
           ++ done.
           ++ intros id r [ -> | Hin ]%elem_of_cons Hr.
              ** rewrite Hrole in Hr. injection Hr as <-.
                 destruct (Hstart h0 eq_refl) as (h & -> & Hle).
                 exists h. split; [ done | lia ].
              ** by apply (Hrest id).
      * destruct (IH _ Hloop) as [Hstart Hrest]. split.
        -- done.
        -- intros id r [ -> | Hin ]%elem_of_cons Hr.
           ++ rewrite Hrole in Hr. injection Hr as <-. by apply Hstart.
           ++ by apply (Hrest id).
    + destruct (IH _ Hloop) as [Hstart Hrest]. split; [ done | ].
      intros id r [ -> | Hin ]%elem_of_cons Hr; [ congruence | by apply (Hrest id) ].
Qed.

End RoleRanking.



(** C8, evaluated. M holds the roles "200" and "100", both on position 5,
    and is compared with the role "150" on the same position. Under the
    ranking order "100" is above "200" and above "150", so the member's
    highest role outranks "150"; the code answers false when "200" comes
    first in the member's role list, and true when the same two roles come in
    the other order. *)
Theorem C8_highest_role_without_tie_break :
  await (isHigherPosition (Snapshots.cacheTie ["200"; "100"]) "G" "M" "150") = Return false
  ∧ await (isHigherPosition (Snapshots.cacheTie ["100"; "200"]) "G" "M" "150") = Return true
  ∧ await (highestRole (Snapshots.cacheTie ["200"; "100"]) "G" "M")
    = Return (Some (Role.mk "200" 5 "0"))
  ∧ await (higherRolePosition (Snapshots.cacheTie ["200"; "100"]) "G" "100" "200") = Return true
  ∧ await (higherRolePosition (Snapshots.cacheTie ["200"; "100"]) "G" "100" "150") = Return true.
Proof. repeat split; reflexivity. Qed.

(** A member of the guild with an empty role list has no highest role, and
    the comparison fails instead of falling back on the everyone role. *)
Lemma isHigherPosition_no_roles :
  await (highestRole (Snapshots.cacheTie []) "G" "M") = Return None
  ∧ await (isHigherPosition (Snapshots.cacheTie []) "G" "M" "150")
    = Throw (Error Errors.ROLE_NOT_FOUND).
Proof. split; reflexivity. Qed.

(** * The overwrite resolver *)

Section BitMasks.

(** Equations between masks, bit by bit. *)
Ltac bitwise :=
  apply Z.bits_inj'; intros n Hn;
  repeat match goal with
         | H : @eq Z _ _ |- _ => apply (f_equal (λ z, Z.testbit z n)) in H; cbn beta in H
         end;
  repeat first [ rewrite Z.land_spec in * | rewrite Z.lor_spec in *
               | rewrite Z.lnot_spec in * by lia | rewrite Z.bits_0 in * ];
  repeat match goal with
         | |- context [Z.testbit ?z n] => destruct (Z.testbit z n)
         | H : context [Z.testbit ?z n] |- _ => destruct (Z.testbit z n)
         end;
  cbn in *; congruence.

(** Clearing a deny mask and setting an allow mask keeps a bit clear when
    the allow mask does not have it. *)
Lemma mask_stays_clear (p d a m : Z) :
  Z.land p m = 0 → Z.land a m = 0 → Z.land (Z.lor (Z.land p (Z.lnot d)) a) m = 0.
Proof. intros Hp Ha. bitwise. Qed.

(** A mask that is denied and not allowed is clear afterwards, whatever the
    set was before. *)
Lemma denied_mask_clear (p d a m : Z) :
  Z.land d m = m → Z.land a m = 0 → Z.land (Z.lor (Z.land p (Z.lnot d)) a) m = 0.
Proof. intros Hd Ha. bitwise. Qed.

(** A mask that is allowed is set afterwards, denied or not. *)
Lemma allowed_mask_set (p d a m : Z) :
  Z.land a m = m → Z.land (Z.lor (Z.land p (Z.lnot d)) a) m = m.
Proof. intros Ha. bitwise. Qed.

(** Setting an allow mask clears nothing. *)
Lemma lor_keeps_bits (p a : Z) : Z.land (Z.lor p a) p = p.
Proof. bitwise. Qed.

End BitMasks.

Section OverwriteResolver.

Variable Permissions : Permission → Z.
Variable cache : Cache.

(** No string read from a promise object is an integer literal: on every
    channel of a guild the call stops at line 72 with a SyntaxError, before
    any overwrite is read. *)
Lemma computeChannelOverwrites_guild_channel
    (memberID channelID : string) (channel : Channel.t) :
  channels cache !! channelID = Some channel →
  Channel.guildID channel ≠ "" →
  await (computeChannelOverwrites Permissions cache memberID channelID)
  = Throw SyntaxError.
Proof.
  intros Hchannel Hguild. unfold computeChannelOverwrites, async, await.
  rewrite Hchannel. unfold truthy_string.
  apply String.eqb_neq in Hguild. by rewrite Hguild.
Qed.

(** A channel outside a guild gives the sentinel. *)
Lemma computeChannelOverwrites_private_channel
    (memberID channelID : string) (channel : Channel.t) :
  channels cache !! channelID = Some channel →
  Channel.guildID channel = "" →
  await (computeChannelOverwrites Permissions cache memberID channelID) = Return "8".
Proof.
  intros Hchannel Hguild. unfold computeChannelOverwrites, async, await.
  by rewrite Hchannel, Hguild.
Qed.

(** The only string [computeChannelOverwrites] ever returns is the
    sentinel. *)
Lemma computeChannelOverwrites_Return (memberID channelID bits : string) :
  await (computeChannelOverwrites Permissions cache memberID channelID) = Return bits →
  bits = "8".
Proof.
  destruct (channels cache !! channelID) as [ channel | ] eqn:Hchannel.
  - destruct (String.eqb_spec (Channel.guildID channel) "") as [ Hguild | Hguild ].
    + rewrite (computeChannelOverwrites_private_channel _ _ _ Hchannel Hguild). congruence.
    + by rewrite (computeChannelOverwrites_guild_channel _ _ _ Hchannel Hguild).
  - unfold computeChannelOverwrites, async, await. by rewrite Hchannel.
Qed.

(** [applyOverwrite] on an overwrite whose masks are integer literals. *)
Lemma applyOverwrite_Return (permissions : Z) (overwrite : Overwrite.t) (result : Z) :
  applyOverwrite permissions overwrite = Return result →
  ∃ deny allow,
    JS.StringToBigInt (Overwrite.deny overwrite) = Some deny
    ∧ JS.StringToBigInt (Overwrite.allow overwrite) = Some allow
    ∧ result = Z.lor (Z.land permissions (Z.lnot deny)) allow.
Proof.
  unfold applyOverwrite, BigInt.
  destruct (JS.StringToBigInt (Overwrite.deny overwrite)) as [ deny | ]; [ | done ].
  destruct (JS.StringToBigInt (Overwrite.allow overwrite)) as [ allow | ]; [ | done ].
  cbn. intros [= <-]. eauto.
Qed.

Lemma findOverwrite_Some (overwrites : list Overwrite.t) (id : string)
    (overwrite : Overwrite.t) :
  findOverwrite overwrites id = Some overwrite →
  overwrite ∈ overwrites ∧ Overwrite.id overwrite = id.
Proof.
  intros [Hin Heq]%find_some. split; [ by apply list_elem_of_In | by apply String.eqb_eq ].
Qed.

(** In the loop over the role keys the deny accumulator, which starts at
    [0n], is still [0n] at the end; the allow accumulator has no bit that
    neither its starting value nor an allow mask of the channel has. *)
Lemma roleOverwritesLoop_Return (overwrites : list Overwrite.t) (keys : list string)
    (allow0 allow deny : Z) (m : Z) :
  roleOverwritesLoop overwrites keys allow0 0 = Return (allow, deny) →
  deny = 0
  ∧ (Z.land allow0 m = 0 →
     Forall (λ overwrite, Z.land (Spec.maskOf (Overwrite.allow overwrite)) m = 0) overwrites →
     Z.land allow m = 0).
Proof.
  revert allow0. induction keys as [ | roleID keys IH ]; intros allow0.
  - cbn. by intros [= <- <-].
  - cbn [roleOverwritesLoop].
    destruct (findOverwrite overwrites roleID) as [ overwriteRole | ] eqn:Hfind; [ | apply IH ].
    unfold BigInt.
    destruct (JS.StringToBigInt (Overwrite.deny overwriteRole)) as [ d | ]; [ | done ].
    destruct (JS.StringToBigInt (Overwrite.allow overwriteRole)) as [ a | ] eqn:Ha; [ | done ].
    cbn [mbind completion_bind]. rewrite Z.land_0_l. intros Hloop.
    destruct (IH _ Hloop) as (Hdeny & Hclear). split; [ done | ].
    intros Hallow0 Hall. apply Hclear; [ | done ].
    rewrite Z.land_lor_distr_l, Hallow0, Z.lor_0_l.
    apply findOverwrite_Some in Hfind as [Hin _].
    rewrite Forall_forall in Hall. specialize (Hall _ Hin).
    unfold Spec.maskOf in Hall. by rewrite Ha in Hall.
Qed.

(** Hence the role tier of the code removes no bit. *)
Lemma roleOverwrites_keeps_bits (member : Member.t) (channel : Channel.t)
    (permissions result : Z) :
  roleOverwrites member channel permissions = Return result →
  Z.land result permissions = permissions.
Proof.
  unfold roleOverwrites.
  destruct (roleOverwritesLoop _ _ 0 0) as [ [allow deny] | e ] eqn:Hloop; [ | done ].
  cbn. intros [= <-].
  destruct (roleOverwritesLoop_Return _ _ _ _ _ 0 Hloop) as (-> & _).
  change (Z.lnot 0) with (-1). rewrite Z.land_m1_r. apply lor_keeps_bits.
Qed.

End OverwriteResolver.

Section OverwriteTiers.

Variable Permissions : Permission → Z.
Variable cache : Cache.

(** An overwrite looked up by identity and applied keeps a mask clear that
    no allow mask of the channel has. *)
Lemma found_overwrite_clear (overwrites : list Overwrite.t) (id : string)
    (permissions result m : Z) :
  match findOverwrite overwrites id with
  | Some overwrite => applyOverwrite permissions overwrite
  | None => Return permissions
  end = Return result →
  Forall (λ overwrite, Z.land (Spec.maskOf (Overwrite.allow overwrite)) m = 0) overwrites →
  Z.land permissions m = 0 →
  Z.land result m = 0.
Proof.
  intros Htier Hall Hclear.
  destruct (findOverwrite overwrites id) as [ overwrite | ] eqn:Hfind; [ | congruence ].
  apply applyOverwrite_Return in Htier as (deny & allow & _ & Hallow & ->).
  apply findOverwrite_Some in Hfind as [Hin _].
  rewrite Forall_forall in Hall. specialize (Hall _ Hin).
  unfold Spec.maskOf in Hall. rewrite Hallow in Hall.
  by apply mask_stays_clear.
Qed.

Lemma roleOverwrites_clear (member : Member.t) (channel : Channel.t)
    (permissions result m : Z) :
  roleOverwrites member channel permissions = Return result →
  Forall (λ overwrite, Z.land (Spec.maskOf (Overwrite.allow overwrite)) m = 0)
         (Channel.permissionOverwrites channel) →
  Z.land permissions m = 0 →
  Z.land result m = 0.
Proof.
  unfold roleOverwrites. intros Htier Hall Hclear.
  destruct (roleOverwritesLoop _ _ 0 0) as [ [allow deny] | e ] eqn:Hloop; [ | done ].
  cbn in Htier. injection Htier as <-.
  destruct (roleOverwritesLoop_Return _ _ _ _ _ m Hloop) as (_ & Hallow).
  apply mask_stays_clear; [ done | ]. apply Hallow; [ apply Z.land_0_l | done ].
Qed.

(** Lines 73-115 return the sentinel or the decimal form of a set without
    ADMINISTRATOR, when no allow mask of the channel has that bit. *)
Lemma channelOverwritesFrom_sentinelOrClear (memberID : string) (channel : Channel.t)
    (permissions : Z) (bits : string) :
  Spec.noAdministratorOverwrite Permissions channel →
  channelOverwritesFrom Permissions cache memberID channel permissions = Return bits →
  Spec.sentinelOrClear Permissions bits.
Proof.
  intros Hno. unfold channelOverwritesFrom.
  assert (Forall (λ overwrite, Z.land (Spec.maskOf (Overwrite.allow overwrite))
                                      (Permissions ADMINISTRATOR) = 0)
                 (Channel.permissionOverwrites channel)) as Hallow.
  { eapply Forall_impl; [ exact Hno | ]. by intros overwrite [H _]. }
  destruct (truthy_bigint _) eqn:Hadmin; [ intros [= <-]; by left | ].
  apply truthy_bigint_false in Hadmin.
  destruct (members cache !! memberID) as [ member | ]; [ | done ].
  destruct (everyoneOverwrite channel permissions) as [ p1 | ] eqn:H1; [ | done ].
  cbn [mbind completion_bind].
  destruct (roleOverwrites member channel p1) as [ p2 | ] eqn:H2; [ | done ].
  cbn [mbind completion_bind].
  destruct (memberOverwrite memberID channel p2) as [ p3 | ] eqn:H3; [ | done ].
  cbn [mbind completion_bind]. intros [= <-]. right. exists p3.
  split; [ apply JSFacts.StringToBigInt_toString | ].
  apply (found_overwrite_clear _ _ _ _ _ H3 Hallow).
  apply (roleOverwrites_clear _ _ _ _ _ H2 Hallow).
  by apply (found_overwrite_clear _ _ _ _ _ H1 Hallow).
Qed.

(** X24. In lines 73-115 the member's own overwrite is applied last. When
    the value held after line 72 has no ADMINISTRATOR bit, the member is
    cached, and the everyone tier followed by the role tier ends with
    [afterRoles], the lines return [(afterRoles & ~deny) | allow] for the
    overwrite whose identity is the member's ID. Hence a flag that this
    overwrite denies and does not allow is absent from the result, whatever
    the tiers below allowed, and a flag that it allows is present. *)
Theorem X24_member_overwrite_applied_last
    (memberID : string) (member : Member.t) (channel : Channel.t)
    (overwriteMember : Overwrite.t) (permissions afterRoles deny allow : Z) :
  Z.land permissions (Permissions ADMINISTRATOR) = 0 →
  members cache !! memberID = Some member →
  findOverwrite (Channel.permissionOverwrites channel) memberID = Some overwriteMember →
  JS.StringToBigInt (Overwrite.deny overwriteMember) = Some deny →
  JS.StringToBigInt (Overwrite.allow overwriteMember) = Some allow →
  everyoneOverwrite channel permissions ≫= roleOverwrites member channel
  = Return afterRoles →
  let result := Z.lor (Z.land afterRoles (Z.lnot deny)) allow in
  channelOverwritesFrom Permissions cache memberID channel permissions
  = Return (JS.toString result)
  ∧ (∀ F : Permission,
       Z.land deny (Permissions F) = Permissions F →
       Z.land allow (Permissions F) = 0 →
       Z.land result (Permissions F) = 0)
  ∧ (∀ F : Permission,
       Z.land allow (Permissions F) = Permissions F →
       Z.land result (Permissions F) = Permissions F).
Proof.
  intros Hadmin Hmember Hfind Hdeny Hallow Htiers result. split; [ | split ].
  - unfold channelOverwritesFrom.
    apply truthy_bigint_false in Hadmin. rewrite Hadmin, Hmember.
    destruct (everyoneOverwrite channel permissions) as [ p1 | ]; [ | done ].
    cbn [mbind completion_bind] in *. rewrite Htiers. cbn [mbind completion_bind].
    unfold memberOverwrite. rewrite Hfind. unfold applyOverwrite, BigInt.
    by rewrite Hdeny, Hallow.
  - intros F. apply denied_mask_clear.
  - intros F. apply allowed_mask_set.
Qed.

(** C10. Every string [computeBasePermissions] returns is the sentinel
    ["8"] or denotes a set without the ADMINISTRATOR bit; the same holds of
    every string [computeChannelOverwrites] returns, and of every string
    lines 73-115 return from any value of [permissions], when no overwrite
    of the channel has ADMINISTRATOR in a mask; and with ADMINISTRATOR at
    bit value 8, on such a string the test [=== "8"] agrees with the test of
    the ADMINISTRATOR bit. *)
Theorem C10_sentinel_or_administrator_clear :
  (∀ memberID guildID bits : string,
     await (computeBasePermissions Permissions cache memberID guildID) = Return bits →
     Spec.sentinelOrClear Permissions bits)
  ∧ (∀ (memberID channelID bits : string) (channel : Channel.t),
       channels cache !! channelID = Some channel →
       Spec.noAdministratorOverwrite Permissions channel →
       await (computeChannelOverwrites Permissions cache memberID channelID) = Return bits →
       Spec.sentinelOrClear Permissions bits)
  ∧ (∀ (memberID bits : string) (channel : Channel.t) (permissions : Z),
       Spec.noAdministratorOverwrite Permissions channel →
       channelOverwritesFrom Permissions cache memberID channel permissions = Return bits →
       Spec.sentinelOrClear Permissions bits)
  ∧ (Permissions ADMINISTRATOR = 8 →
     ∀ bits : string,
       Spec.sentinelOrClear Permissions bits →
       ∃ z, JS.StringToBigInt bits = Some z
            ∧ (bits = "8" ↔ Z.land z (Permissions ADMINISTRATOR) ≠ 0)).
Proof.
  split; [ | split; [ | split ] ].
  - intros memberID guildID bits Hbase.
    destruct (computeBasePermissions_Return _ _ _ _ _ Hbase) as [ -> | (z & -> & Hz) ];
      [ by left | right ].
    exists z. split; [ apply JSFacts.StringToBigInt_toString | done ].
  - intros memberID channelID bits channel _ _ Hreturn.
    left. by apply (computeChannelOverwrites_Return _ _ _ _ _ Hreturn).
  - intros memberID bits channel permissions Hno Hreturn.
    by apply (channelOverwritesFrom_sentinelOrClear _ _ _ _ Hno Hreturn).
  - intros Hadministrator bits [ -> | (z & Hz & Hclear) ].
    + exists 8. rewrite Hadministrator. split; [ done | ]. split; [ done | done ].
    + exists z. split; [ done | ]. split; [ | done ].
      intros ->. injection Hz as <-. rewrite Hadministrator in Hclear. done.
Qed.

End OverwriteTiers.

(** ** The overwrite resolver on the concrete snapshots *)

(** C1, evaluated. With the value 1024 (VIEW_CHANNEL) in [permissions], M
    holding R1, and an overwrite of R1 allowing SEND_MESSAGES, the role
    tier of the code leaves 1024: its loop visits the key "0", not "R1",
    and finds no overwrite; the tier of the specification gives 3072. With
    a role and an overwrite both named "0" the overwrite is found, and its
    deny mask is still not applied: [deny &= ~mask] keeps [deny] at [0n], so
    3072 stays 3072 where the specification clears SEND_MESSAGES. *)
Theorem C1_role_tier_diverges :
  roleOverwrites Snapshots.memberM Snapshots.channelC 1024 = Return 1024
  ∧ Spec.roleTier ["R1"] (Channel.permissionOverwrites Snapshots.channelC) 1024 = 3072
  ∧ forInKeys (memberRoles Snapshots.memberM "G") = ["0"]
  ∧ roleOverwrites Snapshots.memberZero Snapshots.channelIndexed 3072 = Return 3072
  ∧ Spec.roleTier ["0"] (Channel.permissionOverwrites Snapshots.channelIndexed) 3072 = 1024
  ∧ roleOverwritesLoop (Channel.permissionOverwrites Snapshots.channelIndexed) ["0"] 0 0
    = Return (0, 0).
Proof. repeat split; reflexivity. Qed.

(** C2, evaluated. On the snapshot of §8 the call for M and C throws a
    SyntaxError at line 72. The base permissions of M are 3072
    (VIEW_CHANNEL and SEND_MESSAGES), and from that value lines 73-115
    return "1024": the everyone overwrite removes SEND_MESSAGES and the role
    tier does not find the overwrite of R1, so SEND_MESSAGES is not in the
    result. *)
Theorem C2_end_to_end :
  await (computeChannelOverwrites platformPermissions Snapshots.cacheG "M" "C")
  = Throw SyntaxError
  ∧ await (computeBasePermissions platformPermissions Snapshots.cacheG "M" "G")
    = Return "3072"
  ∧ channelOverwritesFrom platformPermissions Snapshots.cacheG "M" Snapshots.channelC 3072
    = Return "1024"
  ∧ Z.land 1024 (platformPermissions VIEW_CHANNEL) ≠ 0
  ∧ Z.land 1024 (platformPermissions SEND_MESSAGES) = 0.
Proof. repeat split; try reflexivity. discriminate. Qed.

(** C3, evaluated. In channel K the overwrite of R1, a role M holds,
    allows SEND_MESSAGES and the overwrite of M itself denies it. The call
    for M and K throws a SyntaxError at line 72 and yields no set. The base
    permissions of M are 3072, and from that value lines 73-115 return
    "1024", without SEND_MESSAGES: the lines that apply the member's
    overwrite are right and are not reached. *)
Theorem C3_member_overwrite_not_reached :
  findOverwrite (Channel.permissionOverwrites Snapshots.channelDenied) "M"
  = Some (Overwrite.mk "M" "0" "2048")
  ∧ await (computeChannelOverwrites platformPermissions Snapshots.cacheDenied "M" "K")
    = Throw SyntaxError
  ∧ await (computeBasePermissions platformPermissions Snapshots.cacheDenied "M" "G")
    = Return "3072"
  ∧ channelOverwritesFrom platformPermissions Snapshots.cacheDenied "M"
      Snapshots.channelDenied 3072 = Return "1024"
  ∧ Z.land 1024 (platformPermissions SEND_MESSAGES) = 0.
Proof. repeat split; reflexivity. Qed.

(** In channel E the everyone overwrite allows SEND_MESSAGES; the
    overwrite of M denies SEND_MESSAGES and allows ADD_REACTIONS. From 1024
    the result is 1088: VIEW_CHANNEL and ADD_REACTIONS, without
    SEND_MESSAGES. *)
Lemma X24_witness :
  everyoneOverwrite Snapshots.channelEveryoneMember 1024
    ≫= roleOverwrites Snapshots.memberM Snapshots.channelEveryoneMember = Return 3072
  ∧ channelOverwritesFrom platformPermissions Snapshots.cacheG "M"
      Snapshots.channelEveryoneMember 1024
    = Return "1088"
  ∧ Z.land 1088 (platformPermissions SEND_MESSAGES) = 0
  ∧ Z.land 1088 (platformPermissions ADD_REACTIONS) = platformPermissions ADD_REACTIONS.
Proof.
  destruct (X24_member_overwrite_applied_last platformPermissions Snapshots.cacheG
              "M" Snapshots.memberM Snapshots.channelEveryoneMember
              (Overwrite.mk "M" "64" "2048") 1024 3072 2048 64
              eq_refl eq_refl eq_refl eq_refl eq_refl eq_refl)
    as (Hreturn & Hdenied & Hallowed).
  split; [ reflexivity | split; [ exact Hreturn | split ] ].
  - apply (Hdenied SEND_MESSAGES); reflexivity.
  - apply (Hallowed ADD_REACTIONS); reflexivity.
Defined.

(** The invariant of C10 on the snapshot of §8: the base permissions of M,
    what lines 73-115 return for channel C, the sentinel of the channel P
    outside any guild, and the agreement of the two tests on "3072" and on
    the owner's "8". *)
Lemma C10_witness :
  Spec.sentinelOrClear platformPermissions "3072"
  ∧ Spec.sentinelOrClear platformPermissions "1024"
  ∧ Spec.sentinelOrClear platformPermissions "8"
  ∧ (∃ z, JS.StringToBigInt "3072" = Some z
          ∧ ("3072" = "8" ↔ Z.land z (platformPermissions ADMINISTRATOR) ≠ 0))
  ∧ (∃ z, JS.StringToBigInt "8" = Some z
          ∧ ("8" = "8" ↔ Z.land z (platformPermissions ADMINISTRATOR) ≠ 0)).
Proof.
  pose proof (C10_sentinel_or_administrator_clear platformPermissions Snapshots.cacheG)
    as (Hbase & Hchannel & Hfrom & Hagree).
  assert (Spec.noAdministratorOverwrite platformPermissions Snapshots.channelC) as Hno
    by (repeat constructor).
  split; [ | split; [ | split; [ | split ] ] ].
  - apply (Hbase "M" "G"). reflexivity.
  - apply (Hfrom "M" "1024" Snapshots.channelC 3072 Hno). reflexivity.
  - apply (Hchannel "M" "P" "8" Snapshots.channelP); [ reflexivity | constructor | reflexivity ].
  - apply (Hagree eq_refl). apply (Hbase "M" "G"). reflexivity.
  - apply (Hagree eq_refl). apply (Hbase "O" "G"). reflexivity.
Defined.

(** * Further properties of the helpers *)

(** ** Validation and missing permissions *)

Section MoreOnPermissionSets.

Variable Permissions : Permission → Z.
Variable cache : Cache.

Lemma everyPermission_forallb (permissionBits : string) (z : Z)
    (permissions : list Permission) :
  JS.StringToBigInt permissionBits = Some z →
  everyPermission Permissions permissionBits permissions
  = Return (forallb (λ p, truthy_bigint (Z.land z (Permissions p))) permissions).
Proof.
  intros Hz. induction permissions as [ | p permissions IH ]; [ done | ].
  cbn [everyPermission forallb]. unfold BigInt. rewrite Hz. cbn [mbind completion_bind].
  destruct (truthy_bigint (Z.land z (Permissions p))); [ exact IH | done ].
Qed.

Lemma forallb_filter_nil (z : Z) (permissions : list Permission) :
  forallb (λ p, truthy_bigint (Z.land z (Permissions p))) permissions = true
  ↔ filter (λ p, Z.land z (Permissions p) = 0) permissions = [].
Proof.
  induction permissions as [ | p permissions IH ]; [ done | ].
  cbn [forallb]. rewrite filter_cons.
  destruct (truthy_bigint (Z.land z (Permissions p))) eqn:Hp.
  - apply truthy_bigint_true in Hp. rewrite decide_False by done. exact IH.
  - apply truthy_bigint_false in Hp. rewrite decide_True by done. done.
Qed.

(** Both helpers on a bit string that denotes the mask [z]. *)
Lemma validate_and_missing (permissionBits : string) (z : Z)
    (permissions : list Permission) :
  JS.StringToBigInt permissionBits = Some z →
  validatePermissions Permissions permissionBits permissions
  = Return (bool_decide (permissionBits = "8")
            || forallb (λ p, truthy_bigint (Z.land z (Permissions p))) permissions)
  ∧ missingPermissions Permissions permissionBits permissions
    = Return (if bool_decide (permissionBits = "8") then []
              else filter (λ p, Z.land z (Permissions p) = 0) permissions).
Proof.
  intros Hz. unfold validatePermissions, missingPermissions.
  destruct (String.eqb_spec permissionBits "8") as [ -> | Hne ].
  - by rewrite bool_decide_eq_true_2.
  - rewrite bool_decide_eq_false_2 by done.
    by rewrite (everyPermission_forallb _ z), (missingLoop_filter _ _ z).
Qed.

(** X1. On a bit string that is an integer literal (the sentinel
    included), [validatePermissions] and [missingPermissions] both return, and
    the first answers true exactly when the second returns the empty list. *)
Theorem X1_valid_iff_nothing_missing (permissionBits : string) (z : Z)
    (permissions : list Permission) :
  JS.StringToBigInt permissionBits = Some z →
  ∃ (valid : bool) (missing : list Permission),
    validatePermissions Permissions permissionBits permissions = Return valid
    ∧ missingPermissions Permissions permissionBits permissions = Return missing
    ∧ (valid = true ↔ missing = []).
Proof.
  intros Hz. destruct (validate_and_missing _ _ permissions Hz) as [-> ->].
  eexists _, _. split; [ done | split; [ done | ] ].
  destruct (bool_decide (permissionBits = "8")); [ done | ].
  cbn [orb]. apply forallb_filter_nil.
Qed.

(** X2. On a bit string that is no integer literal, both helpers return
    (true, and the empty list) when no permission is asked for, the string
    not being read, and both throw a SyntaxError as soon as one is asked
    for. *)
Theorem X2_bits_not_a_literal (permissionBits : string) :
  JS.StringToBigInt permissionBits = None →
  validatePermissions Permissions permissionBits [] = Return true
  ∧ missingPermissions Permissions permissionBits [] = Return []
  ∧ ∀ (p : Permission) (permissions : list Permission),
      validatePermissions Permissions permissionBits (p :: permissions) = Throw SyntaxError
      ∧ missingPermissions Permissions permissionBits (p :: permissions) = Throw SyntaxError.
Proof.
  intros Hnone. unfold validatePermissions, missingPermissions.
  destruct (String.eqb_spec permissionBits "8") as [ -> | Hne ]; [ discriminate | ].
  repeat split; cbn [everyPermission missingLoop]; unfold BigInt; by rewrite Hnone.
Qed.

(** X3. [hasRolePermissions] and [throwOnMissingGuildPermission] agree on
    every input: when the first answers true the second returns; when it
    answers false the second throws the MISSING_ error of one of the
    permissions asked for; when it fails the second fails with the same
    error. *)
Theorem X3_has_agrees_with_throw (memberID guildID : string)
    (permissions : list Permission) :
  match await (hasRolePermissions Permissions cache memberID guildID permissions) with
  | Return true =>
      await (throwOnMissingGuildPermission Permissions cache memberID guildID permissions)
      = Return tt
  | Return false =>
      ∃ p, p ∈ permissions
           ∧ await (throwOnMissingGuildPermission Permissions cache memberID guildID permissions)
             = Throw (Error ("MISSING_" ++ Permission_name p))
  | Throw e =>
      await (throwOnMissingGuildPermission Permissions cache memberID guildID permissions)
      = Throw e
  end.
Proof.
  unfold hasRolePermissions, throwOnMissingGuildPermission.
  change (await (async ?c)) with c.
  destruct (await (computeBasePermissions Permissions cache memberID guildID))
    as [ bits | e ] eqn:Hbase; [ | done ].
  cbn [mbind completion_bind].
  assert (∃ z, JS.StringToBigInt bits = Some z) as [z Hz].
  { destruct (computeBasePermissions_Return _ _ _ _ _ Hbase) as [ -> | (z & -> & _) ].
    - by exists 8.
    - exists z. apply JSFacts.StringToBigInt_toString. }
  destruct (validate_and_missing _ _ permissions Hz) as [-> ->].
  cbn [mbind completion_bind].
  destruct (bool_decide (bits = "8")); [ done | ]. cbn [orb].
  destruct (forallb _ permissions) eqn:Hall.
  - apply forallb_filter_nil in Hall. by rewrite Hall.
  - destruct (filter _ permissions) as [ | first rest ] eqn:Hfilter.
    + apply forallb_filter_nil in Hfilter. congruence.
    + exists first. split.
      * assert (first ∈ filter (λ p, Z.land z (Permissions p) = 0) permissions) as Hin
          by (rewrite Hfilter; left).
        by apply list_elem_of_filter in Hin as [_ Hin].
      * unfold throwFirstMissing, new_Error. by rewrite Errors_MISSING.
Qed.

End MoreOnPermissionSets.

(** On the snapshot of §8, "3072" is validated against VIEW_CHANNEL and
    SEND_MESSAGES with nothing missing. *)
Lemma X1_witness :
  ∃ (valid : bool) (missing : list Permission),
    validatePermissions platformPermissions "3072" [VIEW_CHANNEL; SEND_MESSAGES] = Return valid
    ∧ missingPermissions platformPermissions "3072" [VIEW_CHANNEL; SEND_MESSAGES]
      = Return missing
    ∧ (valid = true ↔ missing = []).
Proof.
  apply (X1_valid_iff_nothing_missing platformPermissions "3072" 3072). reflexivity.
Defined.

(** The string a promise object prints as is no integer literal. *)
Lemma X2_witness :
  validatePermissions platformPermissions "[object Promise]" [] = Return true
  ∧ missingPermissions platformPermissions "[object Promise]" [] = Return []
  ∧ ∀ (p : Permission) (permissions : list Permission),
      validatePermissions platformPermissions "[object Promise]" (p :: permissions)
      = Throw SyntaxError
      ∧ missingPermissions platformPermissions "[object Promise]" (p :: permissions)
        = Throw SyntaxError.
Proof.
  apply (X2_bits_not_a_literal platformPermissions "[object Promise]"). reflexivity.
Defined.

(** ** The helpers that act for the bot, and the channel check *)

Section MoreOnBotHelpers.

Variable Permissions : Permission → Z.
Variable cache : Cache.
Variable botID : string.

(** X4. [botHasRolePermissions] hands the guild ID over as the member and
    the bot's ID as the guild: when no cached guild has the bot's ID as its
    own, the call fails with GUILD_NOT_FOUND for every guild and every list
    of permissions. *)
Theorem X4_botHasRolePermissions_looks_up_the_bot_as_guild
    (guildID : string) (permissions : list Permission) :
  guilds cache !! botID = None →
  await (botHasRolePermissions Permissions cache botID guildID permissions)
  = Throw (Error Errors.GUILD_NOT_FOUND).
Proof.
  intros Hnone. unfold botHasRolePermissions, hasRolePermissions, computeBasePermissions.
  change (await (async ?c)) with c. by rewrite Hnone.
Qed.

(** X5. The outcome of [throwOnMissingChannelPermission], and of its bot
    variant, is fixed by the channel alone: CHANNEL_NOT_FOUND for a channel
    that is not cached, a normal return for a channel outside a guild, and a
    SyntaxError for a channel of a guild. No MISSING_ error is ever thrown,
    whatever the member and the permissions. *)
Theorem X5_channel_check_outcome (memberID channelID : string)
    (permissions : list Permission) :
  let outcome :=
    match channels cache !! channelID with
    | None => Throw (Error Errors.CHANNEL_NOT_FOUND)
    | Some channel =>
        if bool_decide (Channel.guildID channel = "") then Return tt
        else Throw SyntaxError
    end in
  await (throwOnMissingChannelPermission Permissions cache memberID channelID permissions)
  = outcome
  ∧ await (botThrowOnMissingChannelPermission Permissions cache botID channelID permissions)
    = outcome.
Proof.
  assert (∀ member,
            await (throwOnMissingChannelPermission Permissions cache member channelID
                     permissions)
            = match channels cache !! channelID with
              | None => Throw (Error Errors.CHANNEL_NOT_FOUND)
              | Some channel =>
                  if bool_decide (Channel.guildID channel = "") then Return tt
                  else Throw SyntaxError
              end) as Hany.
  { intros member. unfold throwOnMissingChannelPermission.
    change (await (async ?c)) with c.
    destruct (channels cache !! channelID) as [ channel | ] eqn:Hchannel.
    - destruct (decide (Channel.guildID channel = "")) as [ Hguild | Hguild ].
      + rewrite bool_decide_eq_true_2 by done.
        by rewrite (computeChannelOverwrites_private_channel _ _ _ _ _ Hchannel Hguild).
      + rewrite bool_decide_eq_false_2 by done.
        by rewrite (computeChannelOverwrites_guild_channel _ _ _ _ _ Hchannel Hguild).
    - unfold computeChannelOverwrites. change (await (async ?c)) with c.
      by rewrite Hchannel. }
  intros outcome. split; [ apply Hany | ].
  unfold botThrowOnMissingChannelPermission. change (await (async ?c)) with c. apply Hany.
Qed.

End MoreOnBotHelpers.

(** On the snapshot of §8 no cached guild is named "B": the bot "B" fails
    the check in G with GUILD_NOT_FOUND although G is cached. *)
Lemma X4_witness :
  await (botHasRolePermissions platformPermissions Snapshots.cacheG "B" "G" [VIEW_CHANNEL])
  = Throw (Error Errors.GUILD_NOT_FOUND).
Proof.
  apply (X4_botHasRolePermissions_looks_up_the_bot_as_guild
           platformPermissions Snapshots.cacheG "B" "G" [VIEW_CHANNEL]).
  reflexivity.
Defined.

(** ** The base permissions *)

(** Equations between masks, bit by bit. *)
Ltac by_bits :=
  apply Z.bits_inj'; intros n Hn;
  repeat match goal with
         | H : @eq Z _ _ |- _ => apply (f_equal (λ z, Z.testbit z n)) in H; cbn beta in H
         end;
  repeat first [ rewrite Z.land_spec in * | rewrite Z.lor_spec in *
               | rewrite Z.lnot_spec in * by lia | rewrite Z.bits_0 in * ];
  repeat match goal with
         | |- context [Z.testbit ?z n] => destruct (Z.testbit z n)
         | H : context [Z.testbit ?z n] |- _ => destruct (Z.testbit z n)
         end;
  cbn in *; congruence.

Lemma land_included_trans (z y x : Z) : Z.land z y = y → Z.land y x = x → Z.land z x = x.
Proof. intros Hy Hx. by_bits. Qed.

Lemma land_lor_included (z a b : Z) : Z.land z (Z.lor a b) = Z.lor a b → Z.land z a = a.
Proof. intros H. by_bits. Qed.

Lemma land_lor_included_r (z a b : Z) : Z.land z (Z.lor a b) = Z.lor a b → Z.land z b = b.
Proof. intros H. by_bits. Qed.

Section MoreOnBasePermissions.

Variable Permissions : Permission → Z.

(** What the reduction returns includes the accumulator and the mask of
    every string it went through. *)
Lemma reduceBits_includes (l : list string) (bits z : Z) :
  reduceBits l bits = Return z →
  Z.land z bits = bits
  ∧ ∀ perms mask, perms ∈ l → JS.StringToBigInt perms = Some mask → Z.land z mask = mask.
Proof.
  revert bits. induction l as [ | perms l IH ]; intros bits.
  - cbn. intros [= <-]. split; [ apply Z.land_diag | ].
    intros ? ? Hin. by apply elem_of_nil in Hin.
  - cbn [reduceBits]. unfold BigInt.
    destruct (JS.StringToBigInt perms) as [ p | ] eqn:Hp; [ | done ].
    cbn [mbind completion_bind]. intros Hrest.
    destruct (IH _ Hrest) as [Hacc Hall]. split.
    + by apply (land_lor_included _ _ p).
    + intros perms' mask [ -> | Hin ]%elem_of_cons Hmask.
      * rewrite Hp in Hmask. injection Hmask as <-. by apply (land_lor_included_r _ bits).
      * by apply (Hall perms').
Qed.

(** The reduction does not depend on the order of the strings: the masks
    are OR-ed, and a string that is no integer literal makes it throw
    wherever it stands. *)
Lemma reduceBits_Permutation (l l' : list string) (bits : Z) :
  l ≡ₚ l' → reduceBits l bits = reduceBits l' bits.
Proof.
  intros Hperm. revert bits.
  induction Hperm as [ | x l l' _ IH | x y l | l l' l'' _ IH _ IH' ]; intros bits.
  - done.
  - cbn [reduceBits]. destruct (BigInt x) as [ p | e ]; [ | done ].
    cbn [mbind completion_bind]. apply IH.
  - cbn [reduceBits]. unfold BigInt.
    destruct (JS.StringToBigInt x) as [ p | ], (JS.StringToBigInt y) as [ q | ];
      cbn [mbind completion_bind]; try done.
    by rewrite <- !Z.lor_assoc, (Z.lor_comm p q).
  - by rewrite IH, IH'.
Qed.

Lemma rolePermissions_Permutation (guild : Guild.t) (ids ids' : list string) :
  ids ≡ₚ ids' → rolePermissions guild ids ≡ₚ rolePermissions guild ids'.
Proof. intros Hperm. unfold rolePermissions. by rewrite Hperm. Qed.

Variable cache : Cache.

(** X6. The base permissions include the capability set of every
    candidate role, the everyone role among them: when the call returns,
    the result is the sentinel or a set that has every bit of every role the
    member holds in the guild and of the role named after the guild. *)
Theorem X6_base_includes_each_candidate_role
    (memberID guildID bits : string) (guild : Guild.t) (member : Member.t)
    (role : Role.t) (mask : Z) :
  guilds cache !! guildID = Some guild →
  members cache !! memberID = Some member →
  role ∈ Spec.candidateRoles guild member guildID →
  Spec.capabilitySet role = Some mask →
  await (computeBasePermissions Permissions cache memberID guildID) = Return bits →
  bits = "8" ∨ ∃ z, JS.StringToBigInt bits = Some z ∧ Z.land z mask = mask.
Proof.
  intros Hguild Hmember Hrole Hmask.
  unfold computeBasePermissions. change (await (async ?c)) with c. rewrite Hguild.
  destruct (String.eqb (Guild.ownerID guild) memberID); [ intros [= <-]; by left | ].
  rewrite Hmember.
  destruct (reduceBits _ 0) as [ b | e ] eqn:Hreduce; [ | done ].
  cbn [mbind completion_bind]. rewrite Z.lor_0_l.
  destruct (truthy_bigint _); intros [= <-]; [ by left | right ].
  exists b. split; [ apply JSFacts.StringToBigInt_toString | ].
  destruct (reduceBits_includes _ _ _ Hreduce) as [_ Hall].
  unfold Spec.candidateRoles in Hrole. apply list_elem_of_omap in Hrole as (id & Hid & Hlookup).
  unfold Spec.capabilitySet in Hmask.
  destruct (truthy_string (Role.permissions role)) eqn:Htruthy.
  - apply (Hall (Role.permissions role)); [ | done ].
    unfold rolePermissions. apply list_elem_of_omap. exists id. split; [ exact Hid | ].
    by rewrite Hlookup; cbn; rewrite Htruthy.
  - apply truthy_string_false in Htruthy. rewrite Htruthy in Hmask.
    injection Hmask as <-. apply Z.land_0_r.
Qed.

(** X7. The base permissions do not depend on the order in which the
    member's roles are listed: with the role list of the member permuted,
    the call has the same outcome, error included. *)
Theorem X7_base_independent_of_role_order
    (memberID guildID : string) (member : Member.t) (roles roles' : list string) :
  members cache !! memberID = Some member →
  Member.guilds member !! guildID = Some (GuildMember.mk roles) →
  roles ≡ₚ roles' →
  let member' :=
    Member.mk (Member.id member)
      (<[guildID := GuildMember.mk roles']> (Member.guilds member)) in
  let cache' :=
    {| guilds := guilds cache;
       members := <[memberID := member']> (members cache);
       channels := channels cache |} in
  await (computeBasePermissions Permissions cache' memberID guildID)
  = await (computeBasePermissions Permissions cache memberID guildID).
Proof.
  intros Hmember Hroles Hperm member' cache'.
  unfold computeBasePermissions. change (await (async ?c)) with c.
  cbn [guilds members cache'].
  destruct (guilds cache !! guildID) as [ guild | ]; [ | done ].
  destruct (String.eqb (Guild.ownerID guild) memberID); [ done | ].
  rewrite lookup_insert_eq, Hmember. unfold memberRoles.
  cbn [Member.guilds member']. rewrite lookup_insert_eq, Hroles.
  cbn [fmap option_fmap option_map default GuildMember.roles].
  rewrite (reduceBits_Permutation
             (rolePermissions guild (roles' ++ [guildID]))
             (rolePermissions guild (roles ++ [guildID]))); [ done | ].
  apply rolePermissions_Permutation. by rewrite Hperm.
Qed.

End MoreOnBasePermissions.

(** On the snapshot of §8 the base permissions of M, "3072", include the
    everyone role's VIEW_CHANNEL. *)
Lemma X6_witness :
  "3072" = "8" ∨ ∃ z, JS.StringToBigInt "3072" = Some z ∧ Z.land z 1024 = 1024.
Proof.
  apply (X6_base_includes_each_candidate_role platformPermissions Snapshots.cacheG
           "M" "G" "3072" Snapshots.guildG Snapshots.memberM Snapshots.everyoneG 1024).
  - reflexivity.
  - reflexivity.
  - vm_compute. right. left.
  - reflexivity.
  - reflexivity.
Defined.

(** On the guild with three roles on one position, the member holding
    "200" and "100" has the same base permissions with the two listed the
    other way round. *)
Lemma X7_witness :
  await (computeBasePermissions platformPermissions
           {| guilds := guilds (Snapshots.cacheTie ["200"; "100"]);
              members :=
                <["M" := Member.mk "M"
                           (<["G" := GuildMember.mk ["100"; "200"]]>
                              (<["G" := GuildMember.mk ["200"; "100"]]> ∅))]>
                  (members (Snapshots.cacheTie ["200"; "100"]));
              channels := channels (Snapshots.cacheTie ["200"; "100"]) |} "M" "G")
  = await (computeBasePermissions platformPermissions
             (Snapshots.cacheTie ["200"; "100"]) "M" "G").
Proof.
  exact (X7_base_independent_of_role_order platformPermissions
           (Snapshots.cacheTie ["200"; "100"]) "M" "G"
           (Member.mk "M" (<["G" := GuildMember.mk ["200"; "100"]]> ∅))
           ["200"; "100"] ["100"; "200"]
           eq_refl eq_refl (Permutation_swap "100" "200" [])).
Defined.

(** ** Flags to bits and back *)

Section MoreOnCatalog.

Variable Permissions : Permission → Z.
Variable declared : list Permission.

Lemma testbit_fold_lor (flags : list Permission) (bits n : Z) :
  Z.testbit (fold_left (λ bits perm, Z.lor bits (Permissions perm)) flags bits) n
  = Z.testbit bits n || existsb (λ p, Z.testbit (Permissions p) n) flags.
Proof.
  revert bits. induction flags as [ | p flags IH ]; intros bits.
  - cbn. by rewrite orb_false_r.
  - cbn [fold_left existsb]. by rewrite IH, Z.lor_spec, orb_assoc.
Qed.

Lemma testbit_flagsMask (flags : list Permission) (n : Z) :
  Z.testbit (flagsMask Permissions flags) n = true
  ↔ ∃ p, p ∈ flags ∧ Z.testbit (Permissions p) n = true.
Proof.
  unfold flagsMask. rewrite testbit_fold_lor, Z.bits_0. cbn [orb].
  rewrite existsb_exists. by setoid_rewrite list_elem_of_In.
Qed.

Lemma BigInt_calculateBits (flags : list Permission) :
  BigInt (calculateBits Permissions flags) = Return (flagsMask Permissions flags).
Proof. apply BigInt_toString. Qed.

(** The mask of a list has every bit of each of its flags. *)
Lemma flagsMask_includes (flags : list Permission) (p : Permission) :
  p ∈ flags → Z.land (flagsMask Permissions flags) (Permissions p) = Permissions p.
Proof.
  intros Hin. apply Z.bits_inj. intros n. rewrite Z.land_spec.
  destruct (Z.testbit (Permissions p) n) eqn:Hp; [ | apply andb_false_r ].
  rewrite andb_true_r. apply testbit_flagsMask. eauto.
Qed.

(** It has no bit of a value that shares none with the flags of the list. *)
Lemma flagsMask_disjoint (flags : list Permission) (mask : Z) :
  (∀ q, q ∈ flags → Z.land (Permissions q) mask = 0) →
  Z.land (flagsMask Permissions flags) mask = 0.
Proof.
  intros Hall. apply Z.bits_inj. intros n. rewrite Z.land_spec, Z.bits_0.
  destruct (Z.testbit (flagsMask Permissions flags) n) eqn:Hm; [ | done ].
  apply testbit_flagsMask in Hm as (q & Hq & Hbit).
  specialize (Hall q Hq). apply (f_equal (λ z, Z.testbit z n)) in Hall.
  cbn beta in Hall. by rewrite Z.land_spec, Hbit, Z.bits_0 in Hall.
Qed.

(** X8. What [calculateBits] makes of a list of flags passes the check
    against that list: when no flag of the list has the value zero,
    [validatePermissions] answers true and [missingPermissions] returns the
    empty list. *)
Theorem X8_calculateBits_is_valid (flags : list Permission) :
  (∀ p, p ∈ flags → Permissions p ≠ 0) →
  validatePermissions Permissions (calculateBits Permissions flags) flags = Return true
  ∧ missingPermissions Permissions (calculateBits Permissions flags) flags = Return [].
Proof.
  intros Hnonzero.
  assert (JS.StringToBigInt (calculateBits Permissions flags)
          = Some (flagsMask Permissions flags)) as Hz
    by apply JSFacts.StringToBigInt_toString.
  destruct (validate_and_missing Permissions _ _ flags Hz) as [-> ->].
  assert (forallb (λ p, truthy_bigint (Z.land (flagsMask Permissions flags) (Permissions p)))
                  flags = true) as Hall.
  { apply forallb_forall. intros p Hin%list_elem_of_In. apply truthy_bigint_true.
    rewrite (flagsMask_includes _ _ Hin). by apply Hnonzero. }
  rewrite Hall, orb_true_r. split; [ done | ].
  destruct (bool_decide _); [ done | ]. by apply forallb_filter_nil in Hall as ->.
Qed.

(** X9. [calculateBits] depends on the set of the flags only: two lists
    with the same elements, in whatever order and number, give the same
    string. *)
Theorem X9_calculateBits_of_the_same_flags (flags flags' : list Permission) :
  (∀ p, p ∈ flags ↔ p ∈ flags') →
  calculateBits Permissions flags = calculateBits Permissions flags'.
Proof.
  intros Hsame. change (JS.toString (flagsMask Permissions flags)
                        = JS.toString (flagsMask Permissions flags')).
  f_equal. apply Z.bits_inj. intros n. apply eq_true_iff_eq.
  rewrite !testbit_flagsMask. by setoid_rewrite Hsame.
Qed.

(** No member name is an integer literal. *)
Lemma BigInt_Permission_name (p : Permission) :
  BigInt (Permission_name p) = Throw SyntaxError.
Proof. destruct p; reflexivity. Qed.

(** The value keys of members with a value other than zero are all left
    out. *)
Lemma filterKeys_value_keys (permissionBits : Z) (owners : list Permission)
    (keys : list enumKey) :
  (∀ p, p ∈ owners → Permissions p ≠ 0) →
  filterKeys Permissions permissionBits ((ValueKey <$> owners) ++ keys)
  = filterKeys Permissions permissionBits keys.
Proof.
  intros Hnonzero. induction owners as [ | owner owners IH ]; [ done | ].
  cbn [fmap list_fmap app filterKeys keepKey].
  assert (truthy_bigint (Permissions owner) = true) as ->
    by (apply truthy_bigint_true, Hnonzero; left).
  cbn [mbind completion_bind]. rewrite IH.
  - by destruct (filterKeys Permissions permissionBits keys).
  - intros p Hp. apply Hnonzero. by right.
Qed.

Lemma filterKeys_names (permissionBits : Z) (members : list Permission) :
  filterKeys Permissions permissionBits (NameKey <$> members)
  = Return (Permission_name
              <$> filter (λ p, Z.land permissionBits (Permissions p) ≠ 0) members).
Proof.
  induction members as [ | member members IH ]; [ done | ].
  cbn [fmap list_fmap filterKeys keepKey mbind completion_bind]. rewrite IH.
  cbn [mbind completion_bind keyString]. rewrite filter_cons.
  destruct (truthy_bigint (Z.land permissionBits (Permissions member))) eqn:Hbit.
  - apply truthy_bigint_true in Hbit. by rewrite decide_True.
  - apply truthy_bigint_false in Hbit. rewrite decide_False; [ done | ].
    intros Hne. by apply Hne.
Qed.

Lemma calculatePermissions_nonzero (permissionBits : Z) :
  (∀ p, Permissions p ≠ 0) →
  calculatePermissions Permissions declared permissionBits
  = Return (Permission_name
              <$> filter (λ p, Z.land permissionBits (Permissions p) ≠ 0) declared).
Proof.
  intros Hnonzero. unfold calculatePermissions, Object_keys.
  rewrite filterKeys_value_keys by (intros p _; apply Hnonzero).
  apply filterKeys_names.
Qed.

(** X10. When no member of the enum has the value zero,
    [calculatePermissions] returns the names of the members whose value
    shares a bit with the bits given, in declaration order, and none of the
    value keys. *)
Theorem X10_calculatePermissions_names (permissionBits : Z) :
  (∀ p, Permissions p ≠ 0) →
  calculatePermissions Permissions declared permissionBits
  = Return (Permission_name
              <$> filter (λ p, Z.land permissionBits (Permissions p) ≠ 0) declared).
Proof. apply calculatePermissions_nonzero. Qed.

Lemma reverseOwners_value (members : list Permission) (p : Permission) :
  p ∈ members →
  ∃ q, q ∈ reverseOwners Permissions members ∧ Permissions q = Permissions p.
Proof.
  revert p. induction members as [ | member members IH ]; intros p;
    [ by intros ?%elem_of_nil | ].
  cbn [reverseOwners].
  destruct (existsb _ members) eqn:Hlater.
  - intros [ -> | Hin ]%elem_of_cons; [ | by apply IH ].
    apply existsb_exists in Hlater as (later & Hin%list_elem_of_In & Heq%Z.eqb_eq).
    destruct (IH _ Hin) as (q & Hq & Hvalue). exists q. split; [ done | congruence ].
  - intros [ -> | Hin ]%elem_of_cons.
    + exists member. split; [ left | done ].
    + destruct (IH _ Hin) as (q & Hq & Hvalue). exists q. split; [ by right | done ].
Qed.

Lemma filterKeys_zero_value (permissionBits : Z) (owners : list Permission)
    (keys : list enumKey) :
  (∃ q, q ∈ owners ∧ Permissions q = 0) →
  filterKeys Permissions permissionBits ((ValueKey <$> owners) ++ keys) = Throw SyntaxError.
Proof.
  induction owners as [ | owner owners IH ]; intros (q & Hq & Hzero).
  - by apply elem_of_nil in Hq.
  - cbn [fmap list_fmap app filterKeys keepKey].
    destruct (truthy_bigint (Permissions owner)) eqn:Howner.
    + cbn [mbind completion_bind]. rewrite IH; [ done | ].
      apply truthy_bigint_true in Howner.
      apply elem_of_cons in Hq as [ -> | Hq ]; [ done | eauto ].
    + by rewrite BigInt_Permission_name.
Qed.

(** X11. When a member of the enum has the value zero,
    [calculatePermissions] throws a SyntaxError on every input: the key "0"
    passes the [Number] test and [BigInt] is applied to a member name. *)
Theorem X11_calculatePermissions_with_a_zero_member (p : Permission)
    (permissionBits : Z) :
  p ∈ declared →
  Permissions p = 0 →
  calculatePermissions Permissions declared permissionBits = Throw SyntaxError.
Proof.
  intros Hin Hzero. unfold calculatePermissions, Object_keys.
  apply filterKeys_zero_value.
  destruct (reverseOwners_value _ _ Hin) as (q & Hq & Hvalue).
  exists q. split; [ | congruence ].
  by rewrite merge_sort_Permutation.
Qed.

(** X12. From flags to bits and back: when the values of the members are
    not zero and no two members share a bit, [calculatePermissions] applied
    to the bits that [calculateBits] prints for a list of flags returns the
    names of the declared members that are in the list, in declaration
    order. *)
Theorem X12_flags_to_bits_and_back (flags : list Permission) :
  (∀ p, Permissions p ≠ 0) →
  (∀ p q, p ≠ q → Z.land (Permissions p) (Permissions q) = 0) →
  ∃ z, BigInt (calculateBits Permissions flags) = Return z
       ∧ calculatePermissions Permissions declared z
         = Return (Permission_name <$> filter (λ p, p ∈ flags) declared).
Proof.
  intros Hnonzero Hdisjoint. exists (flagsMask Permissions flags).
  split; [ apply BigInt_calculateBits | ].
  rewrite (calculatePermissions_nonzero (flagsMask Permissions flags) Hnonzero).
  f_equal. f_equal. apply list_filter_iff. intros p. split.
  - intros Hbit. destruct (decide (p ∈ flags)) as [ Hin | Hout ]; [ done | ].
    exfalso. apply Hbit. apply flagsMask_disjoint. intros q Hq.
    apply Hdisjoint. intros ->. done.
  - intros Hin. rewrite (flagsMask_includes _ _ Hin). apply Hnonzero.
Qed.

End MoreOnCatalog.

Section BitsToFlags.

Variable Permissions : Permission → Z.
Variable declared : list Permission.

Lemma land_pow2_testbit (z k : Z) :
  0 ≤ k → Z.land z (2 ^ k) ≠ 0 ↔ Z.testbit z k = true.
Proof.
  intros Hk. split.
  - intros Hne. destruct (Z.testbit z k) eqn:Hbit; [ done | ].
    exfalso. apply Hne. apply Z.bits_inj'. intros n Hn.
    rewrite Z.land_spec, Z.bits_0, Z.pow2_bits_eqb by done.
    destruct (Z.eqb_spec k n) as [ <- | _ ]; [ by rewrite Hbit | apply andb_false_r ].
  - intros Hbit Hzero. apply (f_equal (λ m, Z.testbit m k)) in Hzero. cbn beta in Hzero.
    by rewrite Z.land_spec, Hbit, Z.pow2_bits_eqb, Z.eqb_refl, Z.bits_0 in Hzero.
Qed.

(** X13. From bits to flags and back: when the value of every member is
    a single bit, [calculateBits] applied to the members that
    [calculatePermissions] names for the bits [z] prints [z] restricted to
    the bits of the declared members; bits outside the catalog are lost. *)
Theorem X13_bits_to_flags_and_back (z : Z) :
  (∀ p, ∃ k, 0 ≤ k ∧ Permissions p = 2 ^ k) →
  ∃ flags,
    calculatePermissions Permissions declared z = Return (Permission_name <$> flags)
    ∧ BigInt (calculateBits Permissions flags)
      = Return (Z.land z (flagsMask Permissions declared)).
Proof.
  intros Hbit.
  assert (∀ p, Permissions p ≠ 0) as Hnonzero.
  { intros p. destruct (Hbit p) as (k & Hk & ->). apply Z.pow_nonzero; lia. }
  exists (filter (λ p, Z.land z (Permissions p) ≠ 0) declared).
  split; [ by apply calculatePermissions_nonzero | ].
  rewrite BigInt_calculateBits. f_equal.
  apply Z.bits_inj. intros n. apply eq_true_iff_eq.
  rewrite Z.land_spec, andb_true_iff, !testbit_flagsMask. split.
  - intros (p & [Hz Hin]%list_elem_of_filter & Hn).
    destruct (Hbit p) as (k & Hk & Hp). rewrite Hp in Hz, Hn.
    apply land_pow2_testbit in Hz; [ | done ].
    rewrite Z.pow2_bits_eqb in Hn by done. apply Z.eqb_eq in Hn as <-.
    split; [ done | ]. exists p. split; [ done | ].
    by rewrite Hp, Z.pow2_bits_eqb, Z.eqb_refl.
  - intros [Hz (p & Hin & Hn)]. exists p. split; [ | done ].
    apply list_elem_of_filter. split; [ | done ].
    destruct (Hbit p) as (k & Hk & Hp). rewrite Hp in Hn |- *.
    rewrite Z.pow2_bits_eqb in Hn by done. apply Z.eqb_eq in Hn as <-.
    by apply land_pow2_testbit.
Qed.

End BitsToFlags.

(** The platform's table: single bits, none zero, no two the same. *)
Lemma platformPermissions_single_bit (p : Permission) :
  ∃ k, 0 ≤ k ∧ platformPermissions p = 2 ^ k.
Proof.
  exists (Z.log2 (platformPermissions p)). by destruct p.
Qed.

Lemma platformPermissions_nonzero (p : Permission) : platformPermissions p ≠ 0.
Proof. by destruct p. Qed.

Lemma platformPermissions_disjoint (p q : Permission) :
  p ≠ q → Z.land (platformPermissions p) (platformPermissions q) = 0.
Proof. destruct p, q; intros Hne; try reflexivity; by destruct Hne. Qed.

Lemma X8_witness :
  validatePermissions platformPermissions "3072" [VIEW_CHANNEL; SEND_MESSAGES] = Return true
  ∧ missingPermissions platformPermissions "3072" [VIEW_CHANNEL; SEND_MESSAGES] = Return [].
Proof.
  apply (X8_calculateBits_is_valid platformPermissions [VIEW_CHANNEL; SEND_MESSAGES]).
  intros p _. apply platformPermissions_nonzero.
Defined.

Lemma X9_witness :
  calculateBits platformPermissions [SEND_MESSAGES; VIEW_CHANNEL; SEND_MESSAGES]
  = calculateBits platformPermissions [VIEW_CHANNEL; SEND_MESSAGES].
Proof.
  apply (X9_calculateBits_of_the_same_flags platformPermissions).
  intros p. rewrite !elem_of_cons, !elem_of_nil. tauto.
Defined.

Lemma X10_witness :
  calculatePermissions platformPermissions platformDeclared 3080
  = Return ["ADMINISTRATOR"; "VIEW_CHANNEL"; "SEND_MESSAGES"].
Proof.
  apply (X10_calculatePermissions_names platformPermissions platformDeclared 3080).
  apply platformPermissions_nonzero.
Defined.

Lemma X11_witness :
  calculatePermissions zeroMemberPermissions platformDeclared 3080 = Throw SyntaxError.
Proof.
  apply (X11_calculatePermissions_with_a_zero_member zeroMemberPermissions
           platformDeclared CREATE_INSTANT_INVITE 3080).
  - left.
  - reflexivity.
Defined.

Lemma X12_witness :
  ∃ z, BigInt (calculateBits platformPermissions [SEND_MESSAGES; VIEW_CHANNEL; SEND_MESSAGES])
       = Return z
       ∧ calculatePermissions platformPermissions platformDeclared z
         = Return ["VIEW_CHANNEL"; "SEND_MESSAGES"].
Proof.
  apply (X12_flags_to_bits_and_back platformPermissions platformDeclared
           [SEND_MESSAGES; VIEW_CHANNEL; SEND_MESSAGES]).
  - apply platformPermissions_nonzero.
  - apply platformPermissions_disjoint.
Defined.

(** The bit of value 2^40 is in no member of the platform's table: it is
    lost on the way back. *)
Lemma X13_witness :
  ∃ flags,
    calculatePermissions platformPermissions platformDeclared (2 ^ 40 + 3072)
    = Return (Permission_name <$> flags)
    ∧ BigInt (calculateBits platformPermissions flags) = Return 3072.
Proof.
  apply (X13_bits_to_flags_and_back platformPermissions platformDeclared (2 ^ 40 + 3072)).
  apply platformPermissions_single_bit.
Defined.

(** ** Ranking *)

Section MoreOnRanking.

Variable cache : Cache.

(** One more role ID at the end of the list is one more step of the
    loop. *)
Lemma highestRoleLoop_snoc (roles : gmap string Role.t) (roleIDs : list string)
    (roleID : string) (start : option Role.t) :
  highestRoleLoop roles (roleIDs ++ [roleID]) start
  = match roles !! roleID, highestRoleLoop roles roleIDs start with
    | None, highest => highest
    | Some role, None => Some role
    | Some role, Some highest =>
        if Role.position highest <? Role.position role then Some role else Some highest
    end.
Proof.
  revert start. induction roleIDs as [ | id roleIDs IH ]; intros start.
  - cbn. destruct (roles !! roleID) as [ role | ]; [ | done ].
    destruct start as [ highest | ]; [ | done ].
    by destruct (Role.position highest <? Role.position role).
  - cbn [app highestRoleLoop]. destruct (roles !! id) as [ role | ]; [ | apply IH ].
    destruct start as [ highest | ]; [ | apply IH ].
    destruct (Role.position highest <? Role.position role); apply IH.
Qed.

(** What the loop ends with, from no role: a resolvable role of the list
    that every resolvable role listed before it is strictly below in
    position and every one listed after it is not above; or nothing, when no
    role ID of the list resolves. *)
Lemma highestRoleLoop_first_largest (roles : gmap string Role.t) (roleIDs : list string) :
  match highestRoleLoop roles roleIDs None with
  | Some highest =>
      ∃ (before : list string) (roleID : string) (after : list string),
        roleIDs = (before ++ roleID :: after)%list
        ∧ roles !! roleID = Some highest
        ∧ (∀ id role, id ∈ before → roles !! id = Some role →
             Role.position role < Role.position highest)
        ∧ (∀ id role, id ∈ after → roles !! id = Some role →
             Role.position role ≤ Role.position highest)
  | None => ∀ id, id ∈ roleIDs → roles !! id = None
  end.
Proof.
  induction roleIDs as [ | roleID roleIDs IH ] using rev_ind.
  - cbn. by intros id ?%elem_of_nil.
  - rewrite highestRoleLoop_snoc.
    destruct (roles !! roleID) as [ role | ] eqn:Hrole.
    + destruct (highestRoleLoop roles roleIDs None) as [ highest | ].
      * destruct IH as (before & id0 & after & -> & Hid0 & Hbefore & Hafter).
        destruct (Z.ltb_spec (Role.position highest) (Role.position role)) as [ Hlt | Hge ].
        -- exists (before ++ id0 :: after)%list, roleID, []. repeat split; [ done | | ].
           ++ intros id r [ Hin | [ -> | Hin ]%elem_of_cons ]%elem_of_app Hr.
              ** specialize (Hbefore _ _ Hin Hr). lia.
              ** rewrite Hid0 in Hr. injection Hr as <-. done.
              ** specialize (Hafter _ _ Hin Hr). lia.
           ++ by intros id r ?%elem_of_nil.
        -- exists before, id0, (after ++ [roleID])%list. repeat split.
           ++ by rewrite <- app_assoc.
           ++ done.
           ++ done.
           ++ intros id r [ Hin | ->%list_elem_of_singleton ]%elem_of_app Hr.
              ** by apply (Hafter id).
              ** rewrite Hrole in Hr. by injection Hr as <-.
      * exists roleIDs, roleID, []. repeat split; [ done | | ].
        -- intros id r Hin Hr. rewrite (IH id Hin) in Hr. done.
        -- by intros id r ?%elem_of_nil.
    + destruct (highestRoleLoop roles roleIDs None) as [ highest | ].
      * destruct IH as (before & id0 & after & -> & Hid0 & Hbefore & Hafter).
        exists before, id0, (after ++ [roleID])%list. repeat split.
        -- by rewrite <- app_assoc.
        -- done.
        -- done.
        -- intros id r [ Hin | ->%list_elem_of_singleton ]%elem_of_app Hr.
           ++ by apply (Hafter id).
           ++ congruence.
      * intros id [ Hin | ->%list_elem_of_singleton ]%elem_of_app; [ by apply IH | done ].
Qed.

(** X14. For a cached member with a role list in the guild,
    [highestRole] returns the first listed role of the largest position: a
    role of the list that every resolvable role listed before it is
    strictly below in position and every resolvable role listed after it is
    not above. It returns [undefined] exactly when no role ID of the list
    resolves, the empty list included, and it does not fail. *)
Theorem X14_highestRole_first_of_largest_position
    (guildID memberID : string) (guild : Guild.t) (member : Member.t)
    (roleIDs : list string) :
  guilds cache !! guildID = Some guild →
  members cache !! memberID = Some member →
  Member.guilds member !! guildID = Some (GuildMember.mk roleIDs) →
  ∃ result,
    await (highestRole cache guildID memberID) = Return result
    ∧ match result with
      | Some highest =>
          ∃ (before : list string) (roleID : string) (after : list string),
            roleIDs = (before ++ roleID :: after)%list
            ∧ Guild.roles guild !! roleID = Some highest
            ∧ (∀ id role, id ∈ before → Guild.roles guild !! id = Some role →
                 Role.position role < Role.position highest)
            ∧ (∀ id role, id ∈ after → Guild.roles guild !! id = Some role →
                 Role.position role ≤ Role.position highest)
      | None => ∀ id, id ∈ roleIDs → Guild.roles guild !! id = None
      end.
Proof.
  intros Hguild Hmember Hroles. exists (highestRoleLoop (Guild.roles guild) roleIDs None).
  split; [ | apply highestRoleLoop_first_largest ].
  unfold highestRole. change (await (async ?c)) with c.
  rewrite Hguild, Hmember. cbn [mbind option_bind]. unfold memberRoles.
  by rewrite Hroles.
Qed.

(** X15. A user who is not the owner and is not cached, or is cached
    without an entry for the guild, is ranked as the everyone role:
    [isHigherPosition] has the outcome of [higherRolePosition] called with
    the guild's own ID as the first role. *)
Theorem X15_unknown_member_ranked_as_everyone
    (guildID memberID compareRoleID : string) (guild : Guild.t) :
  guilds cache !! guildID = Some guild →
  Guild.ownerID guild ≠ memberID →
  members cache !! memberID ≫= (λ member, Member.guilds member !! guildID) = None →
  await (isHigherPosition cache guildID memberID compareRoleID)
  = await (higherRolePosition cache guildID guildID compareRoleID).
Proof.
  intros Hguild Howner Hunknown.
  unfold isHigherPosition, higherRolePosition, highestRole.
  change (await (async ?c)) with c. rewrite Hguild.
  apply String.eqb_neq in Howner. rewrite Howner.
  assert (members cache !! memberID ≫= (λ member, memberRoles member guildID) = None) as ->.
  { unfold memberRoles. destruct (members cache !! memberID) as [ member | ]; [ | done ].
    cbn in *. by rewrite Hunknown. }
  cbn [mbind completion_bind].
  destruct (Guild.roles guild !! guildID) as [ everyone | ]; [ done | ].
  by destruct (Guild.roles guild !! compareRoleID).
Qed.

(** X16. For a member that is not the owner, [isHigherPosition] is
    [higherRolePosition] applied to the role that [highestRole] returns,
    when that role is stored in the guild under its own ID. *)
Theorem X16_isHigherPosition_compares_the_highest_role
    (guildID memberID compareRoleID : string) (guild : Guild.t) (highest : Role.t) :
  guilds cache !! guildID = Some guild →
  Guild.ownerID guild ≠ memberID →
  await (highestRole cache guildID memberID) = Return (Some highest) →
  Guild.roles guild !! Role.id highest = Some highest →
  await (isHigherPosition cache guildID memberID compareRoleID)
  = await (higherRolePosition cache guildID (Role.id highest) compareRoleID).
Proof.
  intros Hguild Howner Hhighest Hstored.
  unfold isHigherPosition, higherRolePosition.
  change (await (async ?c)) with c. rewrite Hguild.
  apply String.eqb_neq in Howner. rewrite Howner, Hhighest, Hstored. done.
Qed.

Lemma outranks_asym (a b : Role.t) : Spec.outranks a b → ¬ Spec.outranks b a.
Proof. intros Hab Hba. apply (outranks_irrefl a). by apply (outranks_trans a b a). Qed.

(** X17. [higherRolePosition] orders the roles of a guild strictly: a
    role is not higher than itself, and of two roles with different
    identities exactly one is higher than the other. *)
Theorem X17_higherRolePosition_strict_and_total
    (guildID roleID otherRoleID : string) (guild : Guild.t) (a b : Role.t) :
  guilds cache !! guildID = Some guild →
  Guild.roles guild !! roleID = Some a →
  Guild.roles guild !! otherRoleID = Some b →
  await (higherRolePosition cache guildID roleID roleID) = Return false
  ∧ (Role.id a ≠ Role.id b →
     ∃ higher : bool,
       await (higherRolePosition cache guildID roleID otherRoleID) = Return higher
       ∧ await (higherRolePosition cache guildID otherRoleID roleID) = Return (negb higher)).
Proof.
  intros Hguild Ha Hb. unfold higherRolePosition. change (await (async ?c)) with c.
  rewrite Hguild, Ha, Hb. split.
  - f_equal. apply not_true_is_false. intros H%comparePosition_outranks.
    by apply (outranks_irrefl a).
  - intros Hne. exists (comparePosition a b). split; [ done | ]. f_equal.
    destruct (comparePosition a b) eqn:Hab.
    + cbn [negb]. apply not_true_is_false. intros Hba.
      apply comparePosition_outranks in Hab, Hba. by apply (outranks_asym a b).
    + cbn [negb].
      destruct (outranks_total a b Hne) as [ H | H ]; apply comparePosition_outranks in H;
        congruence.
Qed.

(** X18. [higherThanRoleID] cannot compare against a role on position 0:
    with that position handed over, or read from the guild, it throws; it
    throws as well when neither a position is given nor the guild found. *)
Theorem X18_higherThanRoleID_position_zero
    (this other : Role.t) (guild : Guild.t) (roleID : string) :
  Guild.roles guild !! roleID = Some other →
  Role.position other = 0 →
  higherThanRoleID this (Some guild) roleID None = Throw (Error higherThanRoleID_message)
  ∧ higherThanRoleID this (Some guild) roleID (Some (Role.position other))
    = Throw (Error higherThanRoleID_message)
  ∧ higherThanRoleID this None roleID None = Throw (Error higherThanRoleID_message).
Proof.
  intros Hother Hzero. unfold higherThanRoleID. rewrite Hzero.
  cbn [falsy_position Z.eqb mbind option_bind]. by rewrite Hother; cbn; rewrite Hzero.
Qed.

(** X19. When the guild of the role is cached, holds the role under its
    own ID and holds under [roleID] a role of that identity on a position
    other than 0, [higherThanRoleID] without a position is
    [higherRolePosition] on the two IDs. *)
Theorem X19_higherThanRoleID_agrees_with_higherRolePosition
    (guildID roleID : string) (guild : Guild.t) (this other : Role.t) :
  guilds cache !! guildID = Some guild →
  Guild.roles guild !! Role.id this = Some this →
  Guild.roles guild !! roleID = Some other →
  Role.id other = roleID →
  Role.position other ≠ 0 →
  higherThanRoleID this (Some guild) roleID None
  = await (higherRolePosition cache guildID (Role.id this) roleID).
Proof.
  intros Hguild Hthis Hother Hid Hposition.
  unfold higherThanRoleID, higherRolePosition. change (await (async ?c)) with c.
  rewrite Hguild, Hthis, Hother. cbn. rewrite Hother. cbn.
  apply Z.eqb_neq in Hposition. rewrite Hposition.
  unfold comparePosition. rewrite Hid. by destruct (Role.position this =? Role.position other).
Qed.

End MoreOnRanking.

(** M lists an ID that resolves to no role, then "200" and "100", both on
    position 5: the highest role is "200", the first of the two. *)
Lemma X14_witness :
  ∃ result,
    await (highestRole (Snapshots.cacheTie ["gone"; "200"; "100"]) "G" "M") = Return result
    ∧ match result with
      | Some highest =>
          ∃ (before : list string) (roleID : string) (after : list string),
            ["gone"; "200"; "100"] = (before ++ roleID :: after)%list
            ∧ Guild.roles Snapshots.guildTie !! roleID = Some highest
            ∧ (∀ id role, id ∈ before → Guild.roles Snapshots.guildTie !! id = Some role →
                 Role.position role < Role.position highest)
            ∧ (∀ id role, id ∈ after → Guild.roles Snapshots.guildTie !! id = Some role →
                 Role.position role ≤ Role.position highest)
      | None => ∀ id, id ∈ ["gone"; "200"; "100"] → Guild.roles Snapshots.guildTie !! id = None
      end.
Proof.
  exact (X14_highestRole_first_of_largest_position
           (Snapshots.cacheTie ["gone"; "200"; "100"]) "G" "M" Snapshots.guildTie
           (Member.mk "M" (<["G" := GuildMember.mk ["gone"; "200"; "100"]]> ∅))
           ["gone"; "200"; "100"] eq_refl eq_refl eq_refl).
Defined.

(** "Z" is not cached: against "150" it is ranked as the everyone role. *)
Lemma X15_witness :
  await (isHigherPosition (Snapshots.cacheTie []) "G" "Z" "150")
  = await (higherRolePosition (Snapshots.cacheTie []) "G" "G" "150").
Proof.
  apply (X15_unknown_member_ranked_as_everyone (Snapshots.cacheTie []) "G" "Z" "150"
           Snapshots.guildTie); [ reflexivity | discriminate | reflexivity ].
Defined.

Lemma X16_witness :
  await (isHigherPosition (Snapshots.cacheTie ["200"; "100"]) "G" "M" "150")
  = await (higherRolePosition (Snapshots.cacheTie ["200"; "100"]) "G" "200" "150").
Proof.
  apply (X16_isHigherPosition_compares_the_highest_role
           (Snapshots.cacheTie ["200"; "100"]) "G" "M" "150" Snapshots.guildTie
           (Role.mk "200" 5 "0")); [ reflexivity | discriminate | reflexivity | reflexivity ].
Defined.

Lemma X17_witness :
  await (higherRolePosition (Snapshots.cacheTie []) "G" "100" "100") = Return false
  ∧ ∃ higher : bool,
      await (higherRolePosition (Snapshots.cacheTie []) "G" "100" "200") = Return higher
      ∧ await (higherRolePosition (Snapshots.cacheTie []) "G" "200" "100")
        = Return (negb higher).
Proof.
  destruct (X17_higherRolePosition_strict_and_total (Snapshots.cacheTie []) "G" "100" "200"
              Snapshots.guildTie (Role.mk "100" 5 "0") (Role.mk "200" 5 "0")
              eq_refl eq_refl eq_refl) as [Hself Hother].
  split; [ exact Hself | apply Hother; discriminate ].
Defined.

(** The everyone role of the guild is on position 0. *)
Lemma X18_witness :
  higherThanRoleID (Role.mk "100" 5 "0") (Some Snapshots.guildTie) "G" None
  = Throw (Error higherThanRoleID_message)
  ∧ higherThanRoleID (Role.mk "100" 5 "0") (Some Snapshots.guildTie) "G" (Some 0)
    = Throw (Error higherThanRoleID_message)
  ∧ higherThanRoleID (Role.mk "100" 5 "0") None "G" None
    = Throw (Error higherThanRoleID_message).
Proof.
  apply (X18_higherThanRoleID_position_zero (Role.mk "100" 5 "0") (Role.mk "G" 0 "0")
           Snapshots.guildTie "G"); reflexivity.
Defined.

Lemma X19_witness :
  higherThanRoleID (Role.mk "100" 5 "0") (Some Snapshots.guildTie) "150" None
  = await (higherRolePosition (Snapshots.cacheTie []) "G" "100" "150").
Proof.
  apply (X19_higherThanRoleID_agrees_with_higherRolePosition (Snapshots.cacheTie [])
           "G" "150" Snapshots.guildTie (Role.mk "100" 5 "0") (Role.mk "150" 5 "0"));
    [ reflexivity | reflexivity | reflexivity | reflexivity | discriminate ].
Defined.

(** ** Channels *)

Section MoreOnChannels.

Variable Permissions : Permission → Z.
Variable cache : Cache.

(** X20. For a channel built by [createChannel] and cached under its ID,
    [computeChannelOverwrites] returns the sentinel for every member when
    neither the [guildID] argument nor the payload's [guild_id] is a
    non-empty string, and throws a SyntaxError when one of them is. *)
Theorem X20_created_channel (data : ChannelPayload.t) (guildID : option string)
    (memberID : string) :
  channels cache !! ChannelPayload.id data = Some (createChannel_channel data guildID) →
  await (computeChannelOverwrites Permissions cache memberID (ChannelPayload.id data))
  = if truthy_string (default "" guildID)
       || truthy_string (default "" (ChannelPayload.guild_id data))
    then Throw SyntaxError
    else Return "8".
Proof.
  intros Hcached. unfold computeChannelOverwrites. change (await (async ?c)) with c.
  rewrite Hcached. unfold createChannel_channel. cbn [Channel.guildID].
  destruct guildID as [ given | ].
  - change (default "" (Some given)) with given.
    destruct (truthy_string given) eqn:Hgiven; cbn [orb negb]; [ by rewrite Hgiven | ].
    by destruct (truthy_string (default "" (ChannelPayload.guild_id data))).
  - change (truthy_string (default "" None)) with false. cbn [orb].
    by destruct (truthy_string (default "" (ChannelPayload.guild_id data))).
Qed.

Lemma roleOverwritesLoop_no_overwrites (keys : list string) (allow deny : Z) :
  roleOverwritesLoop [] keys allow deny = Return (allow, deny).
Proof. induction keys as [ | key keys IH ]; [ done | exact IH ]. Qed.

(** X21. A channel without overwrites changes nothing: from a value of
    [permissions] without the ADMINISTRATOR bit, and for a cached member,
    lines 73-115 return that value, whatever the member's roles. *)
Theorem X21_no_overwrites (memberID : string) (member : Member.t) (channel : Channel.t)
    (permissions : Z) :
  members cache !! memberID = Some member →
  Channel.permissionOverwrites channel = [] →
  Z.land permissions (Permissions ADMINISTRATOR) = 0 →
  channelOverwritesFrom Permissions cache memberID channel permissions
  = Return (JS.toString permissions).
Proof.
  intros Hmember Hnone Hadmin. unfold channelOverwritesFrom.
  apply truthy_bigint_false in Hadmin. rewrite Hadmin, Hmember.
  unfold everyoneOverwrite, roleOverwrites, memberOverwrite. rewrite Hnone.
  cbn [findOverwrite List.find mbind completion_bind].
  rewrite roleOverwritesLoop_no_overwrites. cbn [mbind completion_bind].
  change (Z.lnot 0) with (-1). by rewrite Z.land_m1_r, Z.lor_0_r.
Qed.

End MoreOnChannels.

Lemma X20_witness :
  await (computeChannelOverwrites platformPermissions
           {| guilds := ∅; members := ∅;
              channels := <["P" := Channel.mk "P" "" []]> ∅ |} "M" "P")
  = Return "8"
  ∧ await (computeChannelOverwrites platformPermissions
             {| guilds := ∅; members := ∅;
                channels := <["C" := Channel.mk "C" "G" []]> ∅ |} "M" "C")
    = Throw SyntaxError.
Proof.
  split.
  - apply (X20_created_channel platformPermissions
             {| guilds := ∅; members := ∅; channels := <["P" := Channel.mk "P" "" []]> ∅ |}
             (ChannelPayload.mk "P" None None) (Some "") "M").
    reflexivity.
  - apply (X20_created_channel platformPermissions
             {| guilds := ∅; members := ∅; channels := <["C" := Channel.mk "C" "G" []]> ∅ |}
             (ChannelPayload.mk "C" (Some "G") None) None "M").
    reflexivity.
Defined.

Lemma X21_witness :
  channelOverwritesFrom platformPermissions Snapshots.cacheG "M" (Channel.mk "N" "G" []) 3072
  = Return "3072".
Proof.
  apply (X21_no_overwrites platformPermissions Snapshots.cacheG "M" Snapshots.memberM
           (Channel.mk "N" "G" []) 3072); reflexivity.
Defined.

(** ** The last shard of [startBigBrainBot] *)

(** X22. The last shard handed to [spawnShards] is not read from
    [lastShardID]: with a [lastShardID] other than 0 it is
    [firstShardID + 25], whatever [lastShardID] and the number of shards
    are. *)
Theorem X22_lastShard_ignores_lastShardID (given firstShardID shards : Z) :
  given ≠ 0 →
  startBigBrainBot_lastShard (Some given) firstShardID shards = firstShardID + 25.
Proof.
  intros Hgiven%Z.eqb_neq. unfold startBigBrainBot_lastShard.
  cbn [falsy_position]. by rewrite Hgiven.
Qed.

(** Shards 0 to 3 of 10 are asked for: the last shard handed over is 25. *)
Lemma X22_witness : startBigBrainBot_lastShard (Some 3) 0 10 = 25.
Proof. apply (X22_lastShard_ignores_lastShardID 3 0 10). discriminate. Defined.

(** ** The everyone tier under the other two *)

Lemma not_denied_stays (p d a m : Z) :
  Z.land p m = m → Z.land d m = 0 → Z.land (Z.lor (Z.land p (Z.lnot d)) a) m = m.
Proof. intros Hp Hd. by_bits. Qed.

Section EveryoneTier.

Variable Permissions : Permission → Z.
Variable cache : Cache.

(** X23. What the everyone overwrite allows is kept by the tiers above it
    unless the member's own overwrite denies it: when lines 73-115 return,
    the result is the sentinel or a set that has every bit of the everyone
    overwrite's allow mask which no overwrite of the member itself denies.
    The role tier removes nothing. *)
Theorem X23_everyone_allow_survives
    (memberID bits : string) (channel : Channel.t) (overwriteEveryone : Overwrite.t)
    (permissions allow mask : Z) :
  findOverwrite (Channel.permissionOverwrites channel) (Channel.guildID channel)
  = Some overwriteEveryone →
  JS.StringToBigInt (Overwrite.allow overwriteEveryone) = Some allow →
  Z.land allow mask = mask →
  (∀ overwriteMember deny,
     findOverwrite (Channel.permissionOverwrites channel) memberID = Some overwriteMember →
     JS.StringToBigInt (Overwrite.deny overwriteMember) = Some deny →
     Z.land deny mask = 0) →
  channelOverwritesFrom Permissions cache memberID channel permissions = Return bits →
  bits = "8" ∨ ∃ z, JS.StringToBigInt bits = Some z ∧ Z.land z mask = mask.
Proof.
  intros Heveryone Hallow Hmask Hmember. unfold channelOverwritesFrom.
  destruct (truthy_bigint _); [ intros [= <-]; by left | ].
  destruct (members cache !! memberID) as [ member | ]; [ | done ].
  destruct (everyoneOverwrite channel permissions) as [ p1 | ] eqn:H1; [ | done ].
  cbn [mbind completion_bind].
  destruct (roleOverwrites member channel p1) as [ p2 | ] eqn:H2; [ | done ].
  cbn [mbind completion_bind].
  destruct (memberOverwrite memberID channel p2) as [ p3 | ] eqn:H3; [ | done ].
  cbn [mbind completion_bind]. intros [= <-]. right. exists p3.
  split; [ apply JSFacts.StringToBigInt_toString | ].
  assert (Z.land p1 mask = mask) as Hp1.
  { unfold everyoneOverwrite in H1. rewrite Heveryone in H1.
    apply applyOverwrite_Return in H1 as (d & a & _ & Ha & ->).
    rewrite Hallow in Ha. injection Ha as <-. by apply allowed_mask_set. }
  assert (Z.land p2 mask = mask) as Hp2.
  { apply (land_included_trans _ p1); [ | done ].
    by apply (roleOverwrites_keeps_bits member channel). }
  unfold memberOverwrite in H3.
  destruct (findOverwrite _ memberID) as [ overwriteMember | ] eqn:Hfind; [ | congruence ].
  apply applyOverwrite_Return in H3 as (d & a & Hd & _ & ->).
  apply not_denied_stays; [ done | by apply (Hmember overwriteMember) ].
Qed.

End EveryoneTier.

(** A channel of G whose everyone overwrite allows ADD_REACTIONS and
    denies VIEW_CHANNEL, and in which M's own overwrite denies
    SEND_MESSAGES: from 3072 the result is 64, ADD_REACTIONS alone. *)
Lemma X23_witness :
  "64" = "8" ∨ ∃ z, JS.StringToBigInt "64" = Some z ∧ Z.land z 64 = 64.
Proof.
  apply (X23_everyone_allow_survives platformPermissions Snapshots.cacheG "M" "64"
           (Channel.mk "F" "G" [ Overwrite.mk "G" "64" "1024"; Overwrite.mk "M" "0" "2048" ])
           (Overwrite.mk "G" "64" "1024") 3072 64 64).
  - reflexivity.
  - reflexivity.
  - reflexivity.
  - intros overwriteMember deny [= <-] [= <-]. reflexivity.
  - reflexivity.
Defined.
